(** * ebike-g4 / ebike-controller: throttle conditioning and the two timer ISRs

    A shallow embedding of
      - [throttle_process] and [throttle_pas_process]
        (ebike-controller/src/throttle.c),
      - [MAIN_AppTimerISR], [MAIN_MotorISR] and the background loop of [main]
        (ebike-g4/src/main.c),
    followed by the properties of the specification that concern them.

    Numbers.  The C code computes on [float].  Here a [float] is an exact
    rational ([Q]): comparisons, clamps and the control flow are those of the
    source, while rounding, infinities and NaN are outside the model (in
    particular [1 / 0] is [0] in [Q]).  Integer counters are [Z]; where the
    source declares the width (the [uint8_t] pin sample, the [uint16_t] LED
    timer) the truncation is written out. *)

From Stdlib Require Import ZArith QArith Qround Lqa Lia List Bool.
Import ListNotations.

Open Scope Q_scope.

(** ** C comparisons on [float], as booleans *)

Definition Qltb (x y : Q) : bool :=
  match x ?= y with Lt => true | _ => false end.

Definition Qleb (x y : Q) : bool :=
  match x ?= y with Gt => false | _ => true end.

Infix "<?" := Qltb (at level 70, no associativity) : Q_scope.
Infix "<=?" := Qleb (at level 70, no associativity) : Q_scope.

(** * The analog throttle channel (throttle.c, [throttle_process]) *)

Module Throttle.

(** The biquad low-pass: the source only touches the fields [X] (input) and
    [Y] (output); the coefficients and the delay line are kept as [D].
    The struct is declared in a header that is not part of the sources. *)
Record Biquad_Float_Type : Type := mkBiquad {
  X : Q;
  Y : Q;
  D : list Q
}.

(** [Throttle_Analog_Type]: the fields [throttle_process] uses. [state] is
    the hysteresis latch, tested as a C truth value. *)
Record Throttle_Analog_Type : Type := mkAnalog {
  state : Z;
  startup_count : Z;
  min : Q;
  max : Q;
  scale_factor : Q
}.

(** The three globals of throttle.c that [throttle_process] reads and
    writes. *)
Record Globals : Type := mkGlobals {
  Throttle_filt : Biquad_Float_Type;
  sThrottle : Throttle_Analog_Type;
  prev_output : Q
}.

(** Macros and collaborators that [throttle_process] uses and that the
    sources do not define (throttle.h is absent; project_parameters.h only
    keeps some of them, commented out).  They are parameters of the model. *)
Record Params : Type := mkParams {
  THROTTLE_START_TIME : Z;
  THROTTLE_START_DEADTIME : Z;
  THROTTLE_RANGE_LIMIT : Q;
  THROTTLE_DROPOUT : Q;
  THROTTLE_HYST_LOW : Q;
  THROTTLE_HYST_HIGH : Q;
  THROTTLE_SLEW_RATE : Q;
  dfsl_biquadf : Biquad_Float_Type -> Biquad_Float_Type;
  adcGetVref : Q
}.

(** project_parameters.h, lines 242-243 and 260-261. *)
Definition THROTTLE_MIN_DEFAULT : Q := 0.85.
Definition THROTTLE_MAX_DEFAULT : Q := 2.20.
Definition THROTTLE_OUTPUT_MIN : Q := 0.00.
Definition THROTTLE_OUTPUT_MAX : Q := 0.99.

(** Field updates of [sThrottle]. *)
Definition set_state (v : Z) (s : Throttle_Analog_Type) :=
  mkAnalog v (startup_count s) (min s) (max s) (scale_factor s).
Definition set_startup_count (v : Z) (s : Throttle_Analog_Type) :=
  mkAnalog (state s) v (min s) (max s) (scale_factor s).
Definition set_min (v : Q) (s : Throttle_Analog_Type) :=
  mkAnalog (state s) (startup_count s) v (max s) (scale_factor s).
Definition set_max (v : Q) (s : Throttle_Analog_Type) :=
  mkAnalog (state s) (startup_count s) (min s) v (scale_factor s).
Definition set_scale_factor (v : Q) (s : Throttle_Analog_Type) :=
  mkAnalog (state s) (startup_count s) (min s) (max s) v.

(** Lines 86-87: [Throttle_filt.X = raw_voltage; dfsl_biquadf(&Throttle_filt);] *)
Definition filter_step (p : Params) (f : Biquad_Float_Type) (raw_voltage : Q)
  : Biquad_Float_Type :=
  dfsl_biquadf p (mkBiquad raw_voltage (Y f) (D f)).

(** Lines 113-132: the end of the startup routine, run once, on the first
    call that finds [startup_count == THROTTLE_START_TIME]. *)
Definition finish_startup (p : Params) (s : Throttle_Analog_Type)
  : Throttle_Analog_Type :=
  let s := set_startup_count (startup_count s + 1)%Z s in
  let s := set_min
             (min s / inject_Z (THROTTLE_START_TIME p - THROTTLE_START_DEADTIME p)) s in
  let s := if (1.0 <? min s) || (min s <? 0.3)
           then set_min THROTTLE_MIN_DEFAULT s else s in
  let s := set_max (adcGetVref p - THROTTLE_DROPOUT p) s in
  let s := if (3.0 <? max s) || (max s <? 1.5)
           then set_max THROTTLE_MAX_DEFAULT s else s in
  set_scale_factor (1.0 / (max s - min s)) s.

(** Lines 140-146: a reading above the recorded maximum becomes the
    maximum. *)
Definition raise_max (p : Params) (y : Q) (s : Throttle_Analog_Type)
  : Throttle_Analog_Type :=
  if max s + THROTTLE_RANGE_LIMIT p <? y
  then let s := set_max y s in
       set_scale_factor (1.0 / (max s - min s)) s
  else s.

(** Lines 148-151: the command before the hysteresis gate. *)
Definition clip (temp_cmd : Q) : Q :=
  let temp_cmd := if temp_cmd <? THROTTLE_OUTPUT_MIN
                  then THROTTLE_OUTPUT_MIN else temp_cmd in
  if THROTTLE_OUTPUT_MAX <? temp_cmd then THROTTLE_OUTPUT_MAX else temp_cmd.

(** Lines 152-172: the hysteresis gate; returns the channel and the gated
    command. *)
Definition hysteresis (p : Params) (s : Throttle_Analog_Type) (temp_cmd : Q)
  : Throttle_Analog_Type * Q :=
  if negb (state s =? 0)%Z
  then if temp_cmd <=? THROTTLE_HYST_LOW p
       then (set_state 0 s, 0.0)
       else (s, temp_cmd)
  else if THROTTLE_HYST_HIGH p <=? temp_cmd
       then (set_state 1 s, temp_cmd)
       else (s, 0.0).

(** Lines 174-178: the upward rate limit. *)
Definition rate_limit (p : Params) (prev temp_cmd : Q) : Q :=
  let delta := temp_cmd - prev in
  if THROTTLE_SLEW_RATE p <? delta then prev + THROTTLE_SLEW_RATE p else temp_cmd.

(** [throttle_process], lines 83-182.  The result is the new value of the
    globals and the returned command. *)
Definition throttle_process (p : Params) (g : Globals) (raw_voltage : Q)
  : Globals * Q :=
  let filt := filter_step p (Throttle_filt g) raw_voltage in
  let s := sThrottle g in
  if (startup_count s <? THROTTLE_START_TIME p)%Z
  then
    let s := set_startup_count (startup_count s + 1)%Z s in
    let s := if (THROTTLE_START_DEADTIME p <=? startup_count s)%Z
             then set_min (min s + Y filt) s else s in
    (mkGlobals filt s (prev_output g), 0.0)
  else
    let s := if (startup_count s =? THROTTLE_START_TIME p)%Z
             then finish_startup p s else s in
    if Y filt <? min s - THROTTLE_RANGE_LIMIT p
    then (mkGlobals filt (set_startup_count 0 s) (prev_output g), 0.0)
    else
      let s := raise_max p (Y filt) s in
      let temp_cmd := clip ((Y filt - min s) * scale_factor s) in
      let '(s, temp_cmd) := hysteresis p s temp_cmd in
      let temp_cmd := rate_limit p (prev_output g) temp_cmd in
      (mkGlobals filt s temp_cmd, temp_cmd).

(** Which of the three exits of [throttle_process] a call takes. *)
Inductive Path : Type := Startup | Reentry | Normal.

Definition throttle_path (p : Params) (g : Globals) (raw_voltage : Q) : Path :=
  let filt := filter_step p (Throttle_filt g) raw_voltage in
  let s := sThrottle g in
  if (startup_count s <? THROTTLE_START_TIME p)%Z then Startup
  else
    let s := if (startup_count s =? THROTTLE_START_TIME p)%Z
             then finish_startup p s else s in
    if Y filt <? min s - THROTTLE_RANGE_LIMIT p then Reentry else Normal.

(** The clipped command of a call, the value of [temp_cmd] after line 151
    (defined on the [Normal] path only). *)
Definition clipped_cmd (p : Params) (g : Globals) (raw_voltage : Q) : option Q :=
  let filt := filter_step p (Throttle_filt g) raw_voltage in
  let s := sThrottle g in
  match throttle_path p g raw_voltage with
  | Normal =>
      let s := if (startup_count s =? THROTTLE_START_TIME p)%Z
               then finish_startup p s else s in
      let s := raise_max p (Y filt) s in
      Some (clip ((Y filt - min s) * scale_factor s))
  | _ => None
  end.

(** Successive calls, one per sample; returns the final globals and the
    returned commands, oldest first. *)
Fixpoint run (p : Params) (g : Globals) (samples : list Q) : Globals * list Q :=
  match samples with
  | [] => (g, [])
  | v :: rest =>
      let '(g1, out) := throttle_process p g v in
      let '(g2, outs) := run p g1 rest in
      (g2, out :: outs)
  end.

(** The filter outputs [Throttle_filt.Y] seen by successive calls; the
    filter is stepped by every call, whatever its exit. *)
Fixpoint filtered (p : Params) (f : Biquad_Float_Type) (samples : list Q)
  : list Q :=
  match samples with
  | [] => []
  | v :: rest =>
      let f := filter_step p f v in
      Y f :: filtered p f rest
  end.

(** A filter that passes its input through, to run the channel on a given
    filtered voltage. *)
Definition passthrough (f : Biquad_Float_Type) : Biquad_Float_Type :=
  mkBiquad (X f) (X f) (D f).

(** Modelled from the spec: the macros of throttle.h, which is not among the
    sources: 500 discarded and 500 averaged samples, a 0.05 V guard margin,
    a 0.72 V dropout (the values project_parameters.h keeps commented out),
    a hysteresis band of 0.025 and a rise limit of 0.0005 per period.  The
    supply reference is such that the estimated maximum is the 2.2 V
    default. *)
Definition default_params : Params :=
  mkParams 1000 500 0.05 0.72 0.025 0.030 0.0005 passthrough 2.92.

(** A channel at power-up: nothing learned, latch off, [prev_output = 0.0f]
    (throttle.c, line 17). *)
Definition power_up : Globals :=
  mkGlobals (mkBiquad 0 0 []) (mkAnalog 0 0 0 0 0) 0.0.

(** The channel after a power-up with 1 V on the input, then one sample
    with the grip released at 0.85 V: the startup routine has completed, the
    latch is off. *)
Definition calibrated_at_rest : Globals :=
  fst (run default_params power_up (repeat 1 1001 ++ [0.85])).

(** A calibrated channel with the default bounds, latch off, no output
    yet. *)
Definition idle_channel : Globals :=
  mkGlobals (mkBiquad 0 0 []) (mkAnalog 0 1001 0.85 2.20 (1.0 / 1.35)) 0.0.

(** Every call of the sequence that reaches the hysteresis gate does so with
    a clipped command strictly between the two thresholds. *)
Fixpoint between_thresholds (p : Params) (g : Globals) (samples : list Q) : Prop :=
  match samples with
  | [] => True
  | v :: rest =>
      (forall c, clipped_cmd p g v = Some c ->
                 THROTTLE_HYST_LOW p < c /\ c < THROTTLE_HYST_HIGH p)
      /\ between_thresholds p (fst (throttle_process p g v)) rest
  end.

(** Section 4.2 on a reading above the maximum, read as a frame statement
    about the call: [max] and [scale_factor] are updated, the counter, the
    minimum and the latch are as before. *)
Definition max_update_frame_claim (p : Params) (g : Globals) (v : Q) : Prop :=
  let y := Y (filter_step p (Throttle_filt g) v) in
  let s := sThrottle g in
  let s' := sThrottle (fst (throttle_process p g v)) in
  max s + THROTTLE_RANGE_LIMIT p < y ->
  max s' == y
  /\ scale_factor s' == 1 / (max s' - min s')
  /\ startup_count s' = startup_count s
  /\ min s' == min s
  /\ state s' = state s.

End Throttle.

(** * The pedal-assist channel (throttle.c, [throttle_pas_process]) *)

Module PAS.

(** Modelled from the spec: [Throttle_PAS_Type] is declared in throttle.h,
    which is not among the sources; these are the four fields the function
    uses (last level, elapsed-time counter, filtered speed, scale).  The
    width of the counter is not known, it is an unbounded integer here. *)
Record Throttle_PAS_Type : Type := mkPAS {
  last_reading : Z;
  time_counter : Z;
  filtered_speed : Q;
  scale_factor : Q
}.

(** Macros absent from the sources: the pin numbers of the two throttle
    inputs and the filter weight. *)
Record Params : Type := mkParams {
  ADC_THR1_PIN : Z;
  ADC_THR2_PIN : Z;
  PAS_FILTER : Q
}.

(** The input data registers of the two ports, as read by one call. *)
Record Ports : Type := mkPorts {
  ADC_I_VBUS_THR1_PORT_IDR : Z;
  ADC_THR2_AND_TEMP_PORT_IDR : Z
}.

(** [uint8_t current_reading = PORT->IDR & (1<<PIN);] the masked register is
    truncated to eight bits by the assignment. *)
Definition read_pin (idr pin : Z) : Z :=
  Z.land (Z.land idr (Z.shiftl 1 pin)) 255.

Definition set_last_reading (v : Z) (s : Throttle_PAS_Type) :=
  mkPAS v (time_counter s) (filtered_speed s) (scale_factor s).
Definition set_time_counter (v : Z) (s : Throttle_PAS_Type) :=
  mkPAS (last_reading s) v (filtered_speed s) (scale_factor s).
Definition set_filtered_speed (v : Q) (s : Throttle_PAS_Type) :=
  mkPAS (last_reading s) (time_counter s) v (scale_factor s).

(** [throttle_pas_process], lines 184-216.  The C function returns nothing;
    the second component is the final value of its local [thr_output]
    ([None] when the function returns at line 198). *)
Definition throttle_pas_process (p : Params) (io : Ports)
    (sPasThrottle : Throttle_PAS_Type) (thrnum : Z)
  : Throttle_PAS_Type * option Q :=
  let sample :=
    if (thrnum =? 1)%Z
    then Some (read_pin (ADC_I_VBUS_THR1_PORT_IDR io) (ADC_THR1_PIN p))
    else if (thrnum =? 2)%Z
    then Some (read_pin (ADC_THR2_AND_TEMP_PORT_IDR io) (ADC_THR2_PIN p))
    else None in
  match sample with
  | None => (sPasThrottle, None)
  | Some current_reading =>
      let s := sPasThrottle in
      let s :=
        if negb (current_reading =? last_reading s)%Z
        then
          let s := set_last_reading current_reading s in
          if (current_reading =? 1)%Z
          then
            let s := set_filtered_speed
                       ((inject_Z (time_counter s) / 1000.0) * PAS_FILTER p
                        + filtered_speed s * (1 - PAS_FILTER p)) s in
            set_time_counter 0 s
          else s
        else set_time_counter (time_counter s + 1)%Z s in
      let thr_output := filtered_speed s * scale_factor s in
      let thr_output := if thr_output <? Throttle.THROTTLE_OUTPUT_MIN
                        then Throttle.THROTTLE_OUTPUT_MIN else thr_output in
      let thr_output := if Throttle.THROTTLE_OUTPUT_MAX <? thr_output
                        then Throttle.THROTTLE_OUTPUT_MAX else thr_output in
      (s, Some thr_output)
  end.

(** The update of section 4.3 of the specification, in its words: on a level
    change the filtered speed becomes [(1/elapsed) * W + filtered * (1 - W)]
    and the counter is reset, otherwise the counter is incremented. *)
Definition spec_pas_update (W : Q) (level : Z) (s : Throttle_PAS_Type)
  : Throttle_PAS_Type :=
  if negb (level =? last_reading s)%Z
  then mkPAS level 0
         ((1 / inject_Z (time_counter s)) * W + filtered_speed s * (1 - W))
         (scale_factor s)
  else set_time_counter (time_counter s + 1)%Z s.

(** Modelled from the spec: pin 5 and pin 0 (the EXTI lines that
    [throttle_switch_type] enables for the two channels) and an even filter
    weight. *)
Definition default_params : Params := mkParams 5 0 0.5.

(** The level channel [thrnum] presents to one call. *)
Definition sampled_level (p : Params) (io : Ports) (thrnum : Z) : Z :=
  if (thrnum =? 1)%Z
  then read_pin (ADC_I_VBUS_THR1_PORT_IDR io) (ADC_THR1_PIN p)
  else read_pin (ADC_THR2_AND_TEMP_PORT_IDR io) (ADC_THR2_PIN p).

(** Section 4.3 read as a statement about one call of
    [throttle_pas_process] on channel 1 or 2. *)
Definition pas_claim (p : Params) (io : Ports) (s : Throttle_PAS_Type)
    (thrnum : Z) : Prop :=
  let s' := fst (throttle_pas_process p io s thrnum) in
  let want := spec_pas_update (PAS_FILTER p) (sampled_level p io thrnum) s in
  time_counter s' = time_counter want
  /\ filtered_speed s' == filtered_speed want.

(** Channel 2 with the pin low, after 10 periods at the high level. *)
Definition falling_edge_io : Ports := mkPorts 0 0.
Definition falling_edge_state : Throttle_PAS_Type := mkPAS 1 10 0 1.

(** Channel 2 with the pin high, after 10 periods at the low level. *)
Definition rising_edge_io : Ports := mkPorts 0 1.
Definition rising_edge_state : Throttle_PAS_Type := mkPAS 0 10 0 1.

End PAS.

(** * The two timer interrupts and the background loop (main.c) *)

Module Main.

(** ** Globals of main.c *)

(** The structures below are declared in headers that are not among the
    sources; they carry the members main.c accesses. *)
Record Motor_Controls : Type := mkControls {
  ThrottleCommand : Q
}.

Record Motor_Observations : Type := mkObservations {
  RotorAngle : Q;
  RotorSpeed_eHz : Q;
  HallState : Z;
  iA : Q;
  iB : Q;
  iC : Q
}.

Record Motor_PWMDuties : Type := mkDuties {
  tA : Q;
  tB : Q;
  tC : Q
}.

Record FOC_StateVariables : Type := mkFoc {
  Clarke_Alpha : Q;
  Clarke_Beta : Q
}.

(** Modelled from the spec: [PID_Type] is not declared in the sources; the
    PIDState of section 3: gains, integrator, previous error and output
    clamp. *)
Record PID_Type : Type := mkPID {
  Kp : Q;
  Ki : Q;
  Kd : Q;
  Kc : Q;
  integrator : Q;
  prev_error : Q;
  outmin : Q;
  outmax : Q
}.

Inductive ADC_Channel : Type := ADC_IA | ADC_IB | ADC_IC.

(** What the interrupts do to the outside: register writes and calls whose
    effect is not a value returned to main.c, in program order. *)
Inductive Event : Type :=
| GPIO_Low_GLED
| GPIO_High_GLED
| PWM_BDTR_MOE (enabled : bool)
| DAC1_DHR12LD (value : Z)
| PWM_SetDutyF (a b c : Q)
| LIVE_AssemblePacket
| WDT_Feed
| USB_Data_Comm_OneByte_Check
| LIVE_SendPacket.

(** The functions main.c calls in other modules (hall sensor, ADC, CORDIC,
    FOC library, throttle), none of which is among the sources.  [W] is the
    state those modules keep. *)
Record Collaborators (W : Type) : Type := mkCollaborators {
  ADC_RegSeqComplete : W -> W;
  THROTTLE_Process : W -> W;
  THROTTLE_GetCommand : W -> Q;
  FOC_RampGen : Q -> Q -> Q;
  HALL_IncAngle : W -> W;
  HALL_GetAngleF : W -> Q;
  HALL_GetSpeedF : W -> Q;
  HALL_GetState : W -> Z;
  CORDIC_CalcSinCos : Q -> Q * Q;
  ADC_InjSeqComplete : W -> W;
  ADC_GetCurrent : W -> ADC_Channel -> Q;
  FOC_Ipark : Q -> Q -> Q -> Q -> Q * Q;
  FOC_SVM : Q -> Q -> Q * Q * Q
}.

Arguments ADC_RegSeqComplete {W}.
Arguments THROTTLE_Process {W}.
Arguments THROTTLE_GetCommand {W}.
Arguments FOC_RampGen {W}.
Arguments HALL_IncAngle {W}.
Arguments HALL_GetAngleF {W}.
Arguments HALL_GetSpeedF {W}.
Arguments HALL_GetState {W}.
Arguments CORDIC_CalcSinCos {W}.
Arguments ADC_InjSeqComplete {W}.
Arguments ADC_GetCurrent {W}.
Arguments FOC_Ipark {W}.
Arguments FOC_SVM {W}.

(** The variables of main.c, the static [led_timer] of [MAIN_AppTimerISR],
    and the state of the other modules. *)
Record Machine (W : Type) : Type := mkMachine {
  led_timer : Z;
  DBG_Flags : Z;
  DBG_RampAngle : Q;
  DBG_RampIncrement : Q;
  Timestamp : Z;
  Mctrl : Motor_Controls;
  Mobv : Motor_Observations;
  Mpwm : Motor_PWMDuties;
  Mfoc : FOC_StateVariables;
  Mpid_Id : PID_Type;
  Mpid_Iq : PID_Type;
  world : W
}.

Arguments mkMachine {W}.
Arguments led_timer {W}.
Arguments DBG_Flags {W}.
Arguments DBG_RampAngle {W}.
Arguments DBG_RampIncrement {W}.
Arguments Timestamp {W}.
Arguments Mctrl {W}.
Arguments Mobv {W}.
Arguments Mpwm {W}.
Arguments Mfoc {W}.
Arguments Mpid_Id {W}.
Arguments Mpid_Iq {W}.
Arguments world {W}.

Definition DBG_FLAG_PWM_ENABLE : Z := 1.

(** ** A state-and-output monad for interrupt bodies *)

Definition ISR (W A : Type) : Type := Machine W -> A * Machine W * list Event.

Definition ret {W A} (a : A) : ISR W A := fun m => (a, m, []).

Definition bind {W A B} (c : ISR W A) (k : A -> ISR W B) : ISR W B :=
  fun m =>
    let '(a, m1, e1) := c m in
    let '(b, m2, e2) := k a m1 in
    (b, m2, e1 ++ e2).

Definition get {W} : ISR W (Machine W) := fun m => (m, m, []).
Definition modify {W} (f : Machine W -> Machine W) : ISR W unit :=
  fun m => (tt, f m, []).
Definition emit {W} (e : Event) : ISR W unit := fun m => (tt, m, [e]).
Definition when {W} (b : bool) (c : ISR W unit) : ISR W unit :=
  if b then c else ret tt.

Notation "x <- c ;; k" := (bind c (fun x => k))
  (at level 61, c at next level, right associativity).
Notation "c ;; k" := (bind c (fun _ => k))
  (at level 61, right associativity).

(** The new state and the events of one run of an interrupt body. *)
Definition exec {W A} (c : ISR W A) (m : Machine W) : Machine W := snd (fst (c m)).
Definition events {W A} (c : ISR W A) (m : Machine W) : list Event := snd (c m).

(** Assignments to the globals. *)
Definition set_led_timer {W} (v : Z) (m : Machine W) :=
  mkMachine v (DBG_Flags m) (DBG_RampAngle m) (DBG_RampIncrement m)
    (Timestamp m) (Mctrl m) (Mobv m) (Mpwm m) (Mfoc m) (Mpid_Id m) (Mpid_Iq m)
    (world m).
Definition set_DBG_RampAngle {W} (v : Q) (m : Machine W) :=
  mkMachine (led_timer m) (DBG_Flags m) v (DBG_RampIncrement m)
    (Timestamp m) (Mctrl m) (Mobv m) (Mpwm m) (Mfoc m) (Mpid_Id m) (Mpid_Iq m)
    (world m).
Definition set_Timestamp {W} (v : Z) (m : Machine W) :=
  mkMachine (led_timer m) (DBG_Flags m) (DBG_RampAngle m) (DBG_RampIncrement m)
    v (Mctrl m) (Mobv m) (Mpwm m) (Mfoc m) (Mpid_Id m) (Mpid_Iq m) (world m).
Definition set_Mctrl {W} (v : Motor_Controls) (m : Machine W) :=
  mkMachine (led_timer m) (DBG_Flags m) (DBG_RampAngle m) (DBG_RampIncrement m)
    (Timestamp m) v (Mobv m) (Mpwm m) (Mfoc m) (Mpid_Id m) (Mpid_Iq m) (world m).
Definition set_Mobv {W} (v : Motor_Observations) (m : Machine W) :=
  mkMachine (led_timer m) (DBG_Flags m) (DBG_RampAngle m) (DBG_RampIncrement m)
    (Timestamp m) (Mctrl m) v (Mpwm m) (Mfoc m) (Mpid_Id m) (Mpid_Iq m) (world m).
Definition set_Mpwm {W} (v : Motor_PWMDuties) (m : Machine W) :=
  mkMachine (led_timer m) (DBG_Flags m) (DBG_RampAngle m) (DBG_RampIncrement m)
    (Timestamp m) (Mctrl m) (Mobv m) v (Mfoc m) (Mpid_Id m) (Mpid_Iq m) (world m).
Definition set_Mfoc {W} (v : FOC_StateVariables) (m : Machine W) :=
  mkMachine (led_timer m) (DBG_Flags m) (DBG_RampAngle m) (DBG_RampIncrement m)
    (Timestamp m) (Mctrl m) (Mobv m) (Mpwm m) v (Mpid_Id m) (Mpid_Iq m) (world m).
Definition set_world {W} (v : W) (m : Machine W) :=
  mkMachine (led_timer m) (DBG_Flags m) (DBG_RampAngle m) (DBG_RampIncrement m)
    (Timestamp m) (Mctrl m) (Mobv m) (Mpwm m) (Mfoc m) (Mpid_Id m) (Mpid_Iq m) v.

(** A call into another module that updates that module's state. *)
Definition call {W} (f : W -> W) : ISR W unit :=
  modify (fun m => set_world (f (world m)) m).

(** [(uint16_t)x] for a [float] [x]: the fraction is dropped (the conversion
    is only defined by C when the result fits). *)
Definition to_uint16 (x : Q) : Z := (Z.quot (Qnum x) (QDen x)) mod 65536.

(** ** [MAIN_AppTimerISR], lines 149-173 *)
Definition MAIN_AppTimerISR {W} (c : Collaborators W) : ISR W unit :=
  modify (fun m => set_led_timer ((led_timer m + 1) mod 65536)%Z m) ;;
  m <- get ;;
  when (led_timer m =? 500)%Z (emit GPIO_Low_GLED) ;;
  when (1000 <=? led_timer m)%Z
    (emit GPIO_High_GLED ;; modify (set_led_timer 0)) ;;
  call (ADC_RegSeqComplete c) ;;
  m <- get ;;
  emit (PWM_BDTR_MOE (negb (Z.land (DBG_Flags m) DBG_FLAG_PWM_ENABLE =? 0)%Z)) ;;
  call (THROTTLE_Process c) ;;
  modify (fun m => set_Mctrl (mkControls (THROTTLE_GetCommand c (world m))) m).

(** ** [MAIN_MotorISR], lines 176-212

    [Mvar.Timestamp] is initialised with [0u]; it is taken as a 32-bit
    unsigned counter.  [FOC_RampGen] updates the ramp angle through a
    pointer; here it returns the new angle. *)
Definition MAIN_MotorISR {W} (c : Collaborators W) : ISR W unit :=
  modify (fun m => set_Timestamp ((Timestamp m + 1) mod 4294967296)%Z m) ;;
  modify (fun m =>
    set_DBG_RampAngle (FOC_RampGen c (DBG_RampAngle m) (DBG_RampIncrement m)) m) ;;
  call (HALL_IncAngle c) ;;
  modify (fun m =>
    set_Mobv (mkObservations (HALL_GetAngleF c (world m))
                (HALL_GetSpeedF c (world m)) (HALL_GetState c (world m))
                (iA (Mobv m)) (iB (Mobv m)) (iC (Mobv m))) m) ;;
  m <- get ;;
  let '(sin, cos) := CORDIC_CalcSinCos c (DBG_RampAngle m * 2.0 - 1.0) in
  call (ADC_InjSeqComplete c) ;;
  modify (fun m =>
    set_Mobv (mkObservations (RotorAngle (Mobv m)) (RotorSpeed_eHz (Mobv m))
                (HallState (Mobv m))
                (ADC_GetCurrent c (world m) ADC_IA)
                (ADC_GetCurrent c (world m) ADC_IB)
                (ADC_GetCurrent c (world m) ADC_IC)) m) ;;
  let '(alpha, beta) := FOC_Ipark c 0.75 0.0 sin cos in
  modify (set_Mfoc (mkFoc alpha beta)) ;;
  m <- get ;;
  let '(ta, tb, tc) := FOC_SVM c (Clarke_Alpha (Mfoc m)) (Clarke_Beta (Mfoc m)) in
  modify (set_Mpwm (mkDuties ta tb tc)) ;;
  m <- get ;;
  let dac1 := to_uint16 (65535.0 * tA (Mpwm m)) in
  let dac2 := to_uint16 (65535.0 * tB (Mpwm m)) in
  emit (DAC1_DHR12LD ((dac1 + Z.shiftl dac2 16) mod 4294967296)%Z) ;;
  emit (PWM_SetDutyF (tA (Mpwm m)) (tB (Mpwm m)) (tC (Mpwm m))) ;;
  emit LIVE_AssemblePacket.

(** ** One turn of the infinite loop of [main], lines 139-145 *)
Definition main_loop_body {W} : ISR W unit :=
  emit WDT_Feed ;;
  emit USB_Data_Comm_OneByte_Check ;;
  emit LIVE_SendPacket.

(** The duties an interrupt run hands to [PWM_SetDutyF]. *)
Fixpoint duties_written (evs : list Event) : list (Q * Q * Q) :=
  match evs with
  | [] => []
  | PWM_SetDutyF a b c :: rest => (a, b, c) :: duties_written rest
  | _ :: rest => duties_written rest
  end.

Definition is_WDT_Feed (e : Event) : bool :=
  match e with WDT_Feed => true | _ => false end.

Definition is_LED_write (e : Event) : bool :=
  match e with GPIO_Low_GLED | GPIO_High_GLED => true | _ => false end.

End Main.

(** * The current loop of sections 4.4 and 4.5, as the specification words it *)

Module FastContextSpec.
Import Main.

Definition set_Mpid_Id {W} (v : PID_Type) (m : Machine W) :=
  mkMachine (led_timer m) (DBG_Flags m) (DBG_RampAngle m) (DBG_RampIncrement m)
    (Timestamp m) (Mctrl m) (Mobv m) (Mpwm m) (Mfoc m) v (Mpid_Iq m) (world m).
Definition set_Mpid_Iq {W} (v : PID_Type) (m : Machine W) :=
  mkMachine (led_timer m) (DBG_Flags m) (DBG_RampAngle m) (DBG_RampIncrement m)
    (Timestamp m) (Mctrl m) (Mobv m) (Mpwm m) (Mfoc m) (Mpid_Id m) v (world m).

Definition clamp (x lo hi : Q) : Q :=
  if x <? lo then lo else if hi <? x then hi else x.

(** Modelled from the spec: one PID step, section 4.4 item 2 (no PID code is
    among the sources). *)
Definition PID_step (pid : PID_Type) (reference measured : Q) : PID_Type * Q :=
  let error := reference - measured in
  let integ := integrator pid + Ki pid * error in
  let unclamped := Kp pid * error + integ + Kd pid * (error - prev_error pid) in
  let clamped := clamp unclamped (outmin pid) (outmax pid) in
  let integ := integ - Kc pid * (unclamped - clamped) in
  (mkPID (Kp pid) (Ki pid) (Kd pid) (Kc pid) integ error (outmin pid) (outmax pid),
   clamped).

(** Modelled from the spec: the fast context of section 4.6 running sections
    4.4 and 4.5: estimator tick, phase currents, rotating-frame transform of
    the measured currents at the rotor angle, one PID per axis (the
    quadrature axis against the published torque reference, the direct axis
    against zero), inverse transform, modulator, duty outputs.  [FOC_Park] is
    the forward transform, which main.c never calls. *)
Definition spec_fast_context {W} (c : Collaborators W)
    (FOC_Park : Q -> Q -> Q -> Q -> Q -> Q * Q) : ISR W unit :=
  call (HALL_IncAngle c) ;;
  call (ADC_InjSeqComplete c) ;;
  m <- get ;;
  let angle := HALL_GetAngleF c (world m) in
  let '(sin, cos) := CORDIC_CalcSinCos c (angle * 2.0 - 1.0) in
  let '(id, iq) := FOC_Park (ADC_GetCurrent c (world m) ADC_IA)
                     (ADC_GetCurrent c (world m) ADC_IB)
                     (ADC_GetCurrent c (world m) ADC_IC) sin cos in
  let '(pid_d, vd) := PID_step (Mpid_Id m) 0 id in
  let '(pid_q, vq) := PID_step (Mpid_Iq m) (ThrottleCommand (Mctrl m)) iq in
  modify (set_Mpid_Id pid_d) ;;
  modify (set_Mpid_Iq pid_q) ;;
  let '(alpha, beta) := FOC_Ipark c vd vq sin cos in
  let '(ta, tb, tc) := FOC_SVM c alpha beta in
  modify (set_Mpwm (mkDuties ta tb tc)) ;;
  emit (PWM_SetDutyF ta tb tc).

Definition same_duties (x y : Q * Q * Q) : Prop :=
  fst (fst x) == fst (fst y) /\ snd (fst x) == snd (fst y) /\ snd x == snd y.

(** The fast-context sentence of section 4.6 read as a statement about
    [MAIN_MotorISR]: the duties it writes are those of the current loop. *)
Definition fast_context_claim {W} (c : Collaborators W)
    (FOC_Park : Q -> Q -> Q -> Q -> Q -> Q * Q) (m : Machine W) : Prop :=
  Forall2 same_duties
    (duties_written (events (MAIN_MotorISR c) m))
    (duties_written (events (spec_fast_context c FOC_Park) m)).

(** The slow-context sentence of section 4.6 read as a statement about one
    run of [MAIN_AppTimerISR]. *)
Definition slow_context_claim {W} (c : Collaborators W) (m : Machine W) : Prop :=
  let m' := exec (MAIN_AppTimerISR c) m in
  let evs := events (MAIN_AppTimerISR c) m in
  ThrottleCommand (Mctrl m') = THROTTLE_GetCommand c (world m')
  /\ existsb is_LED_write evs = true
  /\ existsb is_WDT_Feed evs = true.

End FastContextSpec.

(** * Stand-ins for the absent modules, to run the interrupts on concrete
    inputs *)

Module Doubles.
Import Main.

Record World : Type := mkWorld {
  hall_angle : Q;
  hall_speed : Q;
  hall_state : Z;
  current : ADC_Channel -> Q;
  throttle_cmd : Q
}.

Definition wrap1 (a : Q) : Q := if 1 <=? a then a - 1 else a.

(** Sine and cosine of [pi * x] at the quarter turns, which is all the
    examples use. *)
Definition quarter_sincos (x : Q) : Q * Q :=
  if Qeq_bool x 0 then (0, 1)
  else if Qeq_bool x 0.5 then (1, 0)
  else if Qeq_bool x (-0.5) then (-1, 0)
  else (0, -1).

Definition ipark (d q sin cos : Q) : Q * Q :=
  (d * cos - q * sin, q * cos + d * sin).

(** Clarke then Park; [0.57735] stands for the inverse square root of 3. *)
Definition park (a b c sin cos : Q) : Q * Q :=
  let alpha := a in
  let beta := (b - c) * 0.57735 in
  (alpha * cos + beta * sin, beta * cos - alpha * sin).

Definition Qmax3 (a b c : Q) : Q :=
  let m := if a <? b then b else a in if m <? c then c else m.
Definition Qmin3 (a b c : Q) : Q :=
  let m := if b <? a then b else a in if c <? m then c else m.

(** Three phase projections, min-max centring, clamp to [0,1]; [0.866]
    stands for half the square root of 3. *)
Definition svm (alpha beta : Q) : Q * Q * Q :=
  let a := alpha in
  let b := - alpha / 2 + 0.866 * beta in
  let c := - alpha / 2 - 0.866 * beta in
  let off := (Qmax3 a b c + Qmin3 a b c) / 2 in
  (FastContextSpec.clamp (0.5 + (a - off)) 0 1,
   FastContextSpec.clamp (0.5 + (b - off)) 0 1,
   FastContextSpec.clamp (0.5 + (c - off)) 0 1).

Definition collaborators : Collaborators World :=
  mkCollaborators World
    (fun w => w)
    (fun w => w)
    throttle_cmd
    (fun angle inc => wrap1 (angle + inc))
    (fun w => mkWorld (wrap1 (hall_angle w + hall_speed w / 20000))
                (hall_speed w) (hall_state w) (current w) (throttle_cmd w))
    hall_angle
    hall_speed
    hall_state
    quarter_sincos
    (fun w => w)
    current
    ipark
    svm.

Definition idle_pid : PID_Type := mkPID 1 1 0 1 0 0 (-1) 1.

(** Rotor at rest at half a turn, no phase current, throttle released, ramp
    at half a turn. *)
Definition at_rest : Machine World :=
  mkMachine 0 0 0.5 0 0 (mkControls 0) (mkObservations 0 0 0 0 0 0)
    (mkDuties 0 0 0) (mkFoc 0 0) idle_pid idle_pid
    (mkWorld 0.5 0 1 (fun _ => 0) 0).

(** [n] consecutive slow-context periods and their events. *)
Fixpoint app_periods (n : nat) (m : Machine World) : Machine World * list Event :=
  match n with
  | O => (m, [])
  | S k =>
      let '(_, m1, e1) := MAIN_AppTimerISR collaborators m in
      let '(m2, e2) := app_periods k m1 in
      (m2, e1 ++ e2)
  end.

End Doubles.

(** * Further definitions for the properties of the calibration and of the
    pedal-assist channel *)

Module ThrottleInvariants.
Import Throttle.

(** What the end of the startup routine establishes (lines 117-129) and the
    later calls keep while the counter is past [THROTTLE_START_TIME]: a
    minimum inside the sane range, a maximum of at least 1.5 V and a scale
    factor that is the inverse of their distance. *)
Definition calibrated (p : Params) (s : Throttle_Analog_Type) : Prop :=
  (THROTTLE_START_TIME p < startup_count s)%Z ->
  0.3 <= min s /\ min s <= 1.0 /\ 1.5 <= max s
  /\ scale_factor s == 1 / (max s - min s).

(** Every call of the sequence reaches the hysteresis gate with the same
    clipped command [c]. *)
Fixpoint steady (p : Params) (g : Globals) (samples : list Q) (c : Q) : Prop :=
  match samples with
  | [] => True
  | v :: rest =>
      clipped_cmd p g v = Some c
      /\ steady p (fst (throttle_process p g v)) rest c
  end.

End ThrottleInvariants.

Module PASRun.
Import PAS.

(** Successive calls of [throttle_pas_process] for one channel, one per
    sampled port state. *)
Fixpoint pas_run (p : Params) (thrnum : Z) (s : Throttle_PAS_Type)
    (ios : list Ports) : Throttle_PAS_Type :=
  match ios with
  | [] => s
  | io :: rest =>
      pas_run p thrnum (fst (throttle_pas_process p io s thrnum)) rest
  end.

End PASRun.

(** * The debug-PWM switches of main.c and runs of the two interrupts *)

Module MainRuns.
Import Main.

(** main.h, line 49. *)
Definition RETVAL_OK : Z := 1.

Definition set_DBG_Flags {W} (v : Z) (m : Machine W) :=
  mkMachine (led_timer m) v (DBG_RampAngle m) (DBG_RampIncrement m)
    (Timestamp m) (Mctrl m) (Mobv m) (Mpwm m) (Mfoc m) (Mpid_Id m) (Mpid_Iq m)
    (world m).

(** [~x] on a 32-bit register. *)
Definition not32 (x : Z) : Z := Z.lxor x 4294967295.

(** [MAIN_EnableDebugPWM], lines 366-369. *)
Definition MAIN_EnableDebugPWM {W} : ISR W Z :=
  modify (fun m => set_DBG_Flags (Z.lor (DBG_Flags m) DBG_FLAG_PWM_ENABLE) m) ;;
  ret RETVAL_OK.

(** [MAIN_DisableDebugPWM], lines 371-374. *)
Definition MAIN_DisableDebugPWM {W} : ISR W Z :=
  modify (fun m =>
    set_DBG_Flags (Z.land (DBG_Flags m) (not32 DBG_FLAG_PWM_ENABLE)) m) ;;
  ret RETVAL_OK.

(** [n] consecutive runs of an interrupt body, with their events. *)
Fixpoint periods {W} (isr : ISR W unit) (n : nat) (m : Machine W)
  : Machine W * list Event :=
  match n with
  | O => (m, [])
  | S k =>
      let '(_, m1, e1) := isr m in
      let '(m2, e2) := periods isr k m1 in
      (m2, e1 ++ e2)
  end.

(** An interleaving of the two periodic contexts, each run to completion. *)
Inductive Context : Type := Slow | Fast.

Fixpoint schedule {W} (c : Collaborators W) (sched : list Context)
    (m : Machine W) : Machine W :=
  match sched with
  | [] => m
  | Slow :: rest => schedule c rest (exec (MAIN_AppTimerISR c) m)
  | Fast :: rest => schedule c rest (exec (MAIN_MotorISR c) m)
  end.

(** The values written to the main-output-enable bit and to the DAC. *)
Fixpoint moe_writes (evs : list Event) : list bool :=
  match evs with
  | [] => []
  | PWM_BDTR_MOE b :: rest => b :: moe_writes rest
  | _ :: rest => moe_writes rest
  end.


End MainRuns.

(** * Bootloader hand-over and the application timer (main.c) *)

Module Boot.

(** The registers the bootloader hand-over touches. *)
Record Registers : Type := mkRegisters {
  TAMP_BKP0R : Z;
  RCC_APB1ENR1 : Z;
  PWR_CR1 : Z;
  SYSCFG_MEMRMP : Z
}.

(** Bit masks of the device header, which is not among the sources. *)
Record Masks : Type := mkMasks {
  RCC_APB1ENR1_PWREN : Z;
  PWR_CR1_DBP : Z;
  SYSCFG_MEMRMP_MEM_MODE : Z;
  SYSCFG_MEMRMP_MEM_MODE_0 : Z
}.

(** main.h, line 55. *)
Definition BOOTLOADER_RESET_FLAG : Z := 0x7441634F.

(** How a function of this group ends: it returns to its caller, it hands
    control to the system bootloader, or it resets the processor. *)
Inductive Outcome : Type := Returns | Bootloader_Entered | System_Reset.

(** [MAIN_CheckBootloader], lines 308-331.  Loading the stack pointer and
    calling the entry point read from the remapped system memory is the
    outcome [Bootloader_Entered]. *)
Definition MAIN_CheckBootloader (k : Masks) (r : Registers)
  : Registers * Outcome :=
  if (TAMP_BKP0R r =? BOOTLOADER_RESET_FLAG)%Z
  then
    let r := mkRegisters (TAMP_BKP0R r)
               (Z.lor (RCC_APB1ENR1 r) (RCC_APB1ENR1_PWREN k))
               (PWR_CR1 r) (SYSCFG_MEMRMP r) in
    let r := mkRegisters (TAMP_BKP0R r) (RCC_APB1ENR1 r)
               (Z.lor (PWR_CR1 r) (PWR_CR1_DBP k)) (SYSCFG_MEMRMP r) in
    let r := mkRegisters 0 (RCC_APB1ENR1 r) (PWR_CR1 r) (SYSCFG_MEMRMP r) in
    let r := mkRegisters (TAMP_BKP0R r) (RCC_APB1ENR1 r) (PWR_CR1 r)
               (Z.land (SYSCFG_MEMRMP r)
                  (MainRuns.not32 (SYSCFG_MEMRMP_MEM_MODE k))) in
    let r := mkRegisters (TAMP_BKP0R r) (RCC_APB1ENR1 r) (PWR_CR1 r)
               (Z.lor (SYSCFG_MEMRMP r) (SYSCFG_MEMRMP_MEM_MODE_0 k)) in
    (r, Bootloader_Entered)
  else (r, Returns).

(** [MAIN_GoToBootloader], lines 350-359. *)
Definition MAIN_GoToBootloader (k : Masks) (r : Registers)
  : Registers * Outcome :=
  let r := mkRegisters (TAMP_BKP0R r)
             (Z.lor (RCC_APB1ENR1 r) (RCC_APB1ENR1_PWREN k))
             (PWR_CR1 r) (SYSCFG_MEMRMP r) in
  let r := mkRegisters (TAMP_BKP0R r) (RCC_APB1ENR1 r)
             (Z.lor (PWR_CR1 r) (PWR_CR1_DBP k)) (SYSCFG_MEMRMP r) in
  let r := mkRegisters BOOTLOADER_RESET_FLAG (RCC_APB1ENR1 r) (PWR_CR1 r)
             (SYSCFG_MEMRMP r) in
  (r, System_Reset).

(** [MAIN_Reboot], lines 361-364. *)
Definition MAIN_Reboot (r : Registers) : Registers * Outcome :=
  (r, System_Reset).

(** The masks of the STM32G4 device header, for concrete runs. *)
Definition g4_masks : Masks := mkMasks 0x10000000 0x100 0x7 0x1.

End Boot.

Module AppTimer.

(** Macros of periphconfig.h and of the device header, neither among the
    sources. *)
Record Config : Type := mkConfig {
  APP_CLK : Z;
  APP_TIM_RATE : Z;
  RCC_APB1ENR1_TIM6EN : Z;
  TIM_DIER_UIE : Z;
  TIM_CR1_CEN : Z;
  PRIO_APPTIMER : Z
}.

Record Hardware : Type := mkHardware {
  RCC_APB1ENR1 : Z;
  APP_TIM_PSC : Z;
  APP_TIM_ARR : Z;
  APP_TIM_DIER : Z;
  APP_TIM_CR1 : Z;
  APP_IRQ_priority : option Z;
  APP_IRQ_enabled : bool
}.

(** Unsigned 32-bit arithmetic, as the [u] suffix of the constants makes
    it. *)
Definition u32 (x : Z) : Z := x mod 4294967296.

(** [MAIN_StartAppTimer], lines 337-347. *)
Definition MAIN_StartAppTimer (k : Config) (h : Hardware) : Hardware :=
  mkHardware
    (Z.lor (RCC_APB1ENR1 h) (RCC_APB1ENR1_TIM6EN k))
    (u32 (u32 (APP_CLK k) / 1000000 - 1))
    (u32 (1000000 / u32 (APP_TIM_RATE k) - 1))
    (TIM_DIER_UIE k)
    (TIM_CR1_CEN k)
    (Some (PRIO_APPTIMER k))
    true.

(** A 170 MHz timer clock and the 1 kHz rate of the comments of main.c. *)
Definition g4_config : Config := mkConfig 170000000 1000 0x10 0x1 0x1 3.

Definition reset_hardware : Hardware := mkHardware 0 0 65535 0 0 None false.

End AppTimer.

(** * Switching a throttle input between analog and pedal-assist
    (throttle.c, [throttle_switch_type]) *)

Module Switch.

(** Macros of throttle.h, the pin and peripheral configuration and the
    device header, none of which is among the sources. *)
Record Macros : Type := mkMacros {
  THROTTLE_TYPE_ANALOG : Z;
  THROTTLE_TYPE_PAS : Z;
  EXTI_IMR_MR5 : Z;
  EXTI_IMR_MR0 : Z;
  EXTI_RTSR_TR5 : Z;
  EXTI_RTSR_TR0 : Z;
  PAS_TIM_PSC : Z;
  TIM_CR1_CEN : Z;
  PRIO_PAS : Z
}.

Record Timer : Type := mkTimer {
  PSC : Z;
  ARR : Z;
  CR1 : Z
}.

Record Hardware : Type := mkHardware {
  EXTI_IMR : Z;
  EXTI_RTSR : Z;
  SYSCFG_EXTICR0 : Z;
  SYSCFG_EXTICR1 : Z;
  PAS1_TIM : Timer;
  PAS2_TIM : Timer
}.

(** Calls into the GPIO and NVIC helpers and the clock-enable macros. *)
Inductive Call : Type :=
| GPIO_Analog_THR1
| GPIO_Input_THR1
| GPIO_Analog_THR2
| GPIO_Input_THR2
| NVIC_SetPriority_EXTI9_5 (prio : Z)
| NVIC_EnableIRQ_EXTI9_5
| NVIC_SetPriority_EXTI0 (prio : Z)
| NVIC_EnableIRQ_EXTI0
| PAS1_TIMER_CLK_ENABLE
| PAS2_TIMER_CLK_ENABLE.

(** [throttle_switch_type], lines 19-81. *)
Definition throttle_switch_type (k : Macros) (h : Hardware) (thrnum thrtype : Z)
  : Hardware * list Call :=
  if (thrnum =? 1)%Z
  then
    if (thrtype =? THROTTLE_TYPE_ANALOG k)%Z
    then
      (mkHardware (Z.land (EXTI_IMR h) (MainRuns.not32 (EXTI_IMR_MR5 k)))
         (EXTI_RTSR h) (SYSCFG_EXTICR0 h) (SYSCFG_EXTICR1 h)
         (PAS1_TIM h) (PAS2_TIM h),
       [GPIO_Analog_THR1])
    else if (thrtype =? THROTTLE_TYPE_PAS k)%Z
    then
      (mkHardware (Z.lor (EXTI_IMR h) (EXTI_IMR_MR5 k))
         (Z.lor (EXTI_RTSR h) (EXTI_RTSR_TR5 k))
         (SYSCFG_EXTICR0 h)
         (Z.lor (SYSCFG_EXTICR1 h) (Z.shiftl 0x03 4))
         (mkTimer (PAS_TIM_PSC k) 0xFFFF (TIM_CR1_CEN k))
         (PAS2_TIM h),
       [GPIO_Input_THR1; NVIC_SetPriority_EXTI9_5 (PRIO_PAS k);
        NVIC_EnableIRQ_EXTI9_5; PAS1_TIMER_CLK_ENABLE])
    else (h, [])
  else if (thrnum =? 2)%Z
  then
    if (thrtype =? THROTTLE_TYPE_ANALOG k)%Z
    then
      (mkHardware (Z.land (EXTI_IMR h) (MainRuns.not32 (EXTI_IMR_MR0 k)))
         (EXTI_RTSR h) (SYSCFG_EXTICR0 h) (SYSCFG_EXTICR1 h)
         (PAS1_TIM h) (PAS2_TIM h),
       [GPIO_Analog_THR2])
    else if (thrtype =? THROTTLE_TYPE_PAS k)%Z
    then
      (mkHardware (Z.lor (EXTI_IMR h) (EXTI_IMR_MR0 k))
         (Z.lor (EXTI_RTSR h) (EXTI_RTSR_TR0 k))
         (Z.lor (SYSCFG_EXTICR0 h) 0x02)
         (SYSCFG_EXTICR1 h)
         (PAS1_TIM h)
         (mkTimer (PAS_TIM_PSC k) 0xFFFF (TIM_CR1_CEN k)),
       [GPIO_Input_THR2; NVIC_SetPriority_EXTI0 (PRIO_PAS k);
        NVIC_EnableIRQ_EXTI0; PAS2_TIMER_CLK_ENABLE])
    else (h, [])
  else (h, []).

(** The interrupt-mask bit of a channel's pin-change line. *)
Definition line_mask (k : Macros) (thrnum : Z) : Z :=
  if (thrnum =? 1)%Z then EXTI_IMR_MR5 k else EXTI_IMR_MR0 k.

(** Analog is type 0 (project_parameters.h, line 120); the other values
    stand for the absent headers: pedal-assist 1, lines 5 and 0. *)
Definition default_macros : Macros :=
  mkMacros 0 1 0x20 0x1 0x20 0x1 16999 0x1 2.

Definition reset_hardware : Hardware :=
  mkHardware 0 0 0 0 (mkTimer 0 0 0) (mkTimer 0 0 0).

End Switch.

(** * Properties *)

(** ** Comparisons *)

Lemma Qltb_spec (x y : Q) : BoolSpec (x < y) (y <= x) (x <? y).
Proof.
  unfold Qltb. destruct (Qcompare_spec x y) as [H|H|H]; constructor.
  - rewrite H. apply Qle_refl.
  - exact H.
  - apply Qlt_le_weak. exact H.
Qed.

Lemma Qleb_spec (x y : Q) : BoolSpec (x <= y) (y < x) (x <=? y).
Proof.
  unfold Qleb. destruct (Qcompare_spec x y) as [H|H|H]; constructor.
  - rewrite H. apply Qle_refl.
  - apply Qlt_le_weak. exact H.
  - exact H.
Qed.

Ltac qcases :=
  repeat match goal with
         | |- context [?x <? ?y] => destruct (Qltb_spec x y)
         | |- context [?x <=? ?y] => destruct (Qleb_spec x y)
         end.

Lemma output_bounds_values :
  Throttle.THROTTLE_OUTPUT_MIN == 0 /\ Throttle.THROTTLE_OUTPUT_MAX == 0.99.
Proof. split; reflexivity. Qed.

(** ** The stages of [throttle_process] *)

Section ThrottleStages.
Import Throttle.
Variable p : Params.

Lemma clip_range (x : Q) :
  THROTTLE_OUTPUT_MIN <= clip x <= THROTTLE_OUTPUT_MAX.
Proof.
  unfold clip, THROTTLE_OUTPUT_MIN, THROTTLE_OUTPUT_MAX.
  qcases; split; try lra.
Qed.

Lemma hysteresis_range (s : Throttle_Analog_Type) (c : Q) :
  THROTTLE_OUTPUT_MIN <= c <= THROTTLE_OUTPUT_MAX ->
  THROTTLE_OUTPUT_MIN <= snd (hysteresis p s c) <= THROTTLE_OUTPUT_MAX.
Proof.
  unfold hysteresis, THROTTLE_OUTPUT_MIN, THROTTLE_OUTPUT_MAX. intros H.
  destruct (negb (state s =? 0)%Z); qcases; simpl; lra.
Qed.

Lemma rate_limit_range (prev t : Q) :
  0 <= THROTTLE_SLEW_RATE p -> 0 <= prev ->
  THROTTLE_OUTPUT_MIN <= t <= THROTTLE_OUTPUT_MAX ->
  THROTTLE_OUTPUT_MIN <= rate_limit p prev t <= THROTTLE_OUTPUT_MAX.
Proof.
  unfold rate_limit, THROTTLE_OUTPUT_MIN, THROTTLE_OUTPUT_MAX. intros Hs Hp H.
  qcases; lra.
Qed.

Lemma rate_limit_le (prev t : Q) :
  rate_limit p prev t <= prev + THROTTLE_SLEW_RATE p.
Proof. unfold rate_limit. qcases; lra. Qed.

Lemma rate_limit_pass (prev t : Q) :
  t - prev <= THROTTLE_SLEW_RATE p -> rate_limit p prev t = t.
Proof.
  unfold rate_limit. intros H.
  destruct (Qltb_spec (THROTTLE_SLEW_RATE p) (t - prev)); [lra | reflexivity].
Qed.

Lemma rate_limit_zero (prev : Q) :
  0 <= THROTTLE_SLEW_RATE p -> 0 <= prev -> rate_limit p prev 0.0 == 0.
Proof.
  intros Hs Hp. rewrite rate_limit_pass; [reflexivity | lra].
Qed.

(** The channel as it enters the hysteresis gate on the [Normal] path. *)
Lemma throttle_process_normal (g : Globals) (v c : Q) :
  clipped_cmd p g v = Some c ->
  exists s1,
    state s1 = state (sThrottle g)
    /\ c = clip ((Y (filter_step p (Throttle_filt g) v) - min s1) * scale_factor s1)
    /\ throttle_process p g v =
       (mkGlobals (filter_step p (Throttle_filt g) v)
          (fst (hysteresis p s1 c))
          (rate_limit p (prev_output g) (snd (hysteresis p s1 c))),
        rate_limit p (prev_output g) (snd (hysteresis p s1 c))).
Proof.
  unfold clipped_cmd, throttle_path, throttle_process.
  destruct (startup_count (sThrottle g) <? THROTTLE_START_TIME p)%Z; [discriminate|].
  set (s0 := if (startup_count (sThrottle g) =? THROTTLE_START_TIME p)%Z
             then finish_startup p (sThrottle g) else sThrottle g).
  assert (Hs0 : state s0 = state (sThrottle g)).
  { unfold s0, finish_startup.
    destruct (startup_count (sThrottle g) =? THROTTLE_START_TIME p)%Z; [|reflexivity].
    cbn. repeat match goal with |- context [if ?b then _ else _] => destruct b end;
      reflexivity. }
  destruct (Y (filter_step p (Throttle_filt g) v) <? min s0 - THROTTLE_RANGE_LIMIT p);
    [discriminate|].
  intros H. injection H as <-.
  exists (raise_max p (Y (filter_step p (Throttle_filt g) v)) s0).
  split; [|split].
  - rewrite <- Hs0. unfold raise_max.
    destruct (_ <? _); reflexivity.
  - reflexivity.
  - destruct (hysteresis p _ _); reflexivity.
Qed.

Lemma clipped_cmd_path (g : Globals) (v : Q) :
  (exists c, clipped_cmd p g v = Some c) <-> throttle_path p g v = Normal.
Proof.
  unfold clipped_cmd. destruct (throttle_path p g v); split;
    try discriminate; try (intros [c H]; discriminate); eauto.
Qed.

(** Off the [Normal] path the call returns [0.0f] and leaves the latch and
    the last output alone. *)
Lemma throttle_process_early (g : Globals) (v : Q) :
  throttle_path p g v <> Normal ->
  snd (throttle_process p g v) = 0.0
  /\ prev_output (fst (throttle_process p g v)) = prev_output g
  /\ state (sThrottle (fst (throttle_process p g v))) = state (sThrottle g).
Proof.
  unfold throttle_path, throttle_process.
  destruct (startup_count (sThrottle g) <? THROTTLE_START_TIME p)%Z.
  - intros _. cbn. destruct (_ <=? _)%Z; auto.
  - set (s0 := if (startup_count (sThrottle g) =? THROTTLE_START_TIME p)%Z
               then finish_startup p (sThrottle g) else sThrottle g).
    assert (Hs0 : state s0 = state (sThrottle g)).
    { unfold s0, finish_startup.
      destruct (startup_count (sThrottle g) =? THROTTLE_START_TIME p)%Z; [|reflexivity].
      cbn. repeat match goal with |- context [if ?b then _ else _] => destruct b end;
        reflexivity. }
    destruct (Y (filter_step p (Throttle_filt g) v) <? min s0 - THROTTLE_RANGE_LIMIT p).
    + intros _. cbn. auto.
    + intros H. exfalso. apply H. reflexivity.
Qed.

End ThrottleStages.

(** ** Output range, startup silence, hysteresis and slew of
    [throttle_process] *)

Section ThrottleClaims.
Import Throttle.

Lemma hysteresis_state_only (p : Params) (s s' : Throttle_Analog_Type) (c : Q) :
  state s = state s' ->
  snd (hysteresis p s c) = snd (hysteresis p s' c)
  /\ state (fst (hysteresis p s c)) = state (fst (hysteresis p s' c)).
Proof.
  unfold hysteresis. intros H. rewrite H.
  destruct (negb (state s' =? 0)%Z);
    [destruct (c <=? THROTTLE_HYST_LOW p) | destruct (THROTTLE_HYST_HIGH p <=? c)];
    cbn; split; auto.
Qed.

(** One call: the command is in range and the last output stays
    nonnegative. *)
Lemma throttle_process_range (p : Params) (g : Globals) (v : Q) :
  0 <= THROTTLE_SLEW_RATE p -> 0 <= prev_output g ->
  0 <= snd (throttle_process p g v) <= 0.99
  /\ 0 <= prev_output (fst (throttle_process p g v)).
Proof.
  intros Hs Hp. destruct (throttle_path p g v) eqn:Hpath.
  1,2: destruct (throttle_process_early p g v) as (Hout & Hprev & _);
       [rewrite Hpath; discriminate|];
       rewrite Hout, Hprev; repeat split; try assumption; lra.
  apply clipped_cmd_path in Hpath. destruct Hpath as [c Hc].
  destruct (throttle_process_normal p g v c Hc) as (s1 & _ & Hclip & ->).
  cbn [fst snd prev_output].
  assert (R : THROTTLE_OUTPUT_MIN
              <= rate_limit p (prev_output g) (snd (hysteresis p s1 c))
              <= THROTTLE_OUTPUT_MAX).
  { apply rate_limit_range; try assumption.
    apply hysteresis_range. rewrite Hclip. apply clip_range. }
  unfold THROTTLE_OUTPUT_MIN, THROTTLE_OUTPUT_MAX in R. lra.
Qed.

(** C1. Every command returned by [throttle_process], over any sequence of
    input voltages and from any state of the channel whose last output is
    not negative (it is [0.0f] at power-up and every call keeps it so), lies
    in [THROTTLE_OUTPUT_MIN, THROTTLE_OUTPUT_MAX] = [0.00, 0.99]; the slew
    rate is a nonnegative constant. *)
Theorem C1_throttle_output_within_limits
    (p : Params) (g : Globals) (samples : list Q) :
  0 <= THROTTLE_SLEW_RATE p -> 0 <= prev_output g ->
  Forall (fun out => THROTTLE_OUTPUT_MIN <= out <= THROTTLE_OUTPUT_MAX
                     /\ 0 <= out <= 0.99)
         (snd (run p g samples)).
Proof.
  intros Hs. revert g. induction samples as [|v rest IH]; intros g Hp; cbn.
  - constructor.
  - destruct (throttle_process_range p g v Hs Hp) as [Hout Hprev].
    destruct (throttle_process p g v) as [g1 out] eqn:E. cbn in Hout, Hprev.
    specialize (IH g1 Hprev). destruct (run p g1 rest) as [g2 outs]. cbn in *.
    constructor; [|exact IH].
    unfold THROTTLE_OUTPUT_MIN, THROTTLE_OUTPUT_MAX. lra.
Qed.

Lemma C1_witness :
  0 <= THROTTLE_SLEW_RATE default_params /\ 0 <= prev_output power_up
  /\ Forall (fun out => THROTTLE_OUTPUT_MIN <= out <= THROTTLE_OUTPUT_MAX
                        /\ 0 <= out <= 0.99)
            (snd (run default_params power_up [1.0; 1.5; 0.2])).
Proof.
  assert (H1 : 0 <= THROTTLE_SLEW_RATE default_params)
    by (unfold Qle; simpl; lia).
  assert (H2 : 0 <= prev_output power_up) by (unfold Qle; simpl; lia).
  split; [exact H1 | split; [exact H2|]].
  exact (C1_throttle_output_within_limits default_params power_up
           [1.0; 1.5; 0.2] H1 H2).
Defined.

Lemma startup_path (p : Params) (g : Globals) (v : Q) :
  (startup_count (sThrottle g) < THROTTLE_START_TIME p)%Z ->
  throttle_path p g v = Startup.
Proof.
  intros H. unfold throttle_path.
  destruct (Z.ltb_spec (startup_count (sThrottle g)) (THROTTLE_START_TIME p));
    [reflexivity | lia].
Qed.

(** C10. A call made while [startup_count < THROTTLE_START_TIME] (Deadtime
    and Averaging), and a call that re-enters Deadtime, return exactly zero
    whatever the input voltage. *)
Theorem C10_no_command_during_calibration (p : Params) (g : Globals) (v : Q) :
  (startup_count (sThrottle g) < THROTTLE_START_TIME p)%Z
  \/ throttle_path p g v = Reentry ->
  snd (throttle_process p g v) = 0.0 /\ snd (throttle_process p g v) == 0.
Proof.
  intros H.
  assert (Hpath : throttle_path p g v <> Normal).
  { destruct H as [H|H].
    - rewrite (startup_path p g v H). discriminate.
    - rewrite H. discriminate. }
  destruct (throttle_process_early p g v Hpath) as (-> & _).
  split; reflexivity.
Qed.

Lemma C10_witness :
  ((startup_count (sThrottle power_up) < THROTTLE_START_TIME default_params)%Z
   /\ snd (throttle_process default_params power_up 2.0) == 0)
  /\ (throttle_path default_params calibrated_at_rest 0.5 = Reentry
      /\ snd (throttle_process default_params calibrated_at_rest 0.5) == 0).
Proof.
  assert (H1 : (startup_count (sThrottle power_up)
                < THROTTLE_START_TIME default_params)%Z) by (simpl; lia).
  assert (H2 : throttle_path default_params calibrated_at_rest 0.5 = Reentry)
    by (vm_compute; reflexivity).
  split; (split; [assumption|]).
  - exact (proj2 (C10_no_command_during_calibration default_params
                    power_up 2.0 (or_introl H1))).
  - exact (proj2 (C10_no_command_during_calibration default_params
                    calibrated_at_rest 0.5 (or_intror H2))).
Defined.

(** The gate, one call on the [Normal] path. *)
Lemma gate_step (p : Params) (g : Globals) (v c : Q) :
  clipped_cmd p g v = Some c ->
  state (sThrottle (fst (throttle_process p g v)))
  = state (fst (hysteresis p (sThrottle g) c))
  /\ snd (throttle_process p g v)
     = rate_limit p (prev_output g) (snd (hysteresis p (sThrottle g) c))
  /\ prev_output (fst (throttle_process p g v)) = snd (throttle_process p g v).
Proof.
  intros Hc.
  destruct (throttle_process_normal p g v c Hc) as (s1 & Hst & _ & ->).
  destruct (hysteresis_state_only p s1 (sThrottle g) c Hst) as [E1 E2].
  cbn [fst snd sThrottle prev_output]. rewrite E1, E2. auto.
Qed.

Lemma gate_off_below (p : Params) (s : Throttle_Analog_Type) (c : Q) :
  state s = 0%Z -> c < THROTTLE_HYST_HIGH p ->
  hysteresis p s c = (s, 0.0).
Proof.
  intros Hs Hc. unfold hysteresis. rewrite Hs. cbn.
  destruct (Qleb_spec (THROTTLE_HYST_HIGH p) c); [lra | reflexivity].
Qed.

Lemma gate_off_reach (p : Params) (s : Throttle_Analog_Type) (c : Q) :
  state s = 0%Z -> THROTTLE_HYST_HIGH p <= c ->
  hysteresis p s c = (set_state 1 s, c).
Proof.
  intros Hs Hc. unfold hysteresis. rewrite Hs. cbn.
  destruct (Qleb_spec (THROTTLE_HYST_HIGH p) c); [reflexivity | lra].
Qed.

Lemma gate_on_fall (p : Params) (s : Throttle_Analog_Type) (c : Q) :
  state s <> 0%Z -> c <= THROTTLE_HYST_LOW p ->
  hysteresis p s c = (set_state 0 s, 0.0).
Proof.
  intros Hs Hc. unfold hysteresis.
  destruct (Z.eqb_spec (state s) 0); [contradiction|]. cbn.
  destruct (Qleb_spec c (THROTTLE_HYST_LOW p)); [reflexivity | lra].
Qed.

Lemma gate_on_pass (p : Params) (s : Throttle_Analog_Type) (c : Q) :
  state s <> 0%Z -> THROTTLE_HYST_LOW p < c ->
  hysteresis p s c = (s, c).
Proof.
  intros Hs Hc. unfold hysteresis.
  destruct (Z.eqb_spec (state s) 0); [contradiction|]. cbn.
  destruct (Qleb_spec c (THROTTLE_HYST_LOW p)); [lra | reflexivity].
Qed.

(** One call never moves the latch when the clipped command, if the call
    has one, is strictly between the thresholds. *)
Lemma latch_kept_step (p : Params) (g : Globals) (v : Q) :
  (forall c, clipped_cmd p g v = Some c ->
             THROTTLE_HYST_LOW p < c /\ c < THROTTLE_HYST_HIGH p) ->
  state (sThrottle (fst (throttle_process p g v))) = state (sThrottle g).
Proof.
  intros H. destruct (clipped_cmd p g v) as [c|] eqn:Hc.
  - destruct (H c eq_refl) as [Hlo Hhi].
    destruct (gate_step p g v c Hc) as (-> & _).
    destruct (Z.eq_dec (state (sThrottle g)) 0) as [E|E].
    + rewrite gate_off_below by assumption. reflexivity.
    + rewrite gate_on_pass by assumption. reflexivity.
  - apply throttle_process_early. intros Hn.
    apply clipped_cmd_path in Hn. destruct Hn as [c Hn]. congruence.
Qed.

Lemma latch_kept_run (p : Params) (samples : list Q) :
  forall g, between_thresholds p g samples ->
            state (sThrottle (fst (run p g samples))) = state (sThrottle g).
Proof.
  induction samples as [|v rest IH]; intros g H; cbn in *.
  - reflexivity.
  - destruct H as [Hv Hrest].
    pose proof (latch_kept_step p g v Hv) as Hstep.
    destruct (throttle_process p g v) as [g1 out]. cbn in *.
    specialize (IH g1 Hrest). destruct (run p g1 rest) as [g2 outs]. cbn in *.
    congruence.
Qed.

(** C5. In the Normal state, with [c] the clipped command of the call:
    latch off and [c] below the upper threshold, the call returns zero and
    the latch stays off; latch off and [c] at or above the upper threshold,
    the latch turns on and [c] goes on to the rate limiter; latch on and [c]
    at or below the lower threshold, the latch turns off and the call
    returns zero; latch on and [c] above the lower threshold, [c] goes on to
    the rate limiter and the latch stays on.  Over any sequence of calls
    whose clipped commands are strictly between the two thresholds the latch
    keeps its value. *)
Theorem C5_hysteresis_gate (p : Params) (g : Globals) (v c : Q) :
  0 <= THROTTLE_SLEW_RATE p -> 0 <= prev_output g ->
  clipped_cmd p g v = Some c ->
  let g' := fst (throttle_process p g v) in
  let out := snd (throttle_process p g v) in
  (state (sThrottle g) = 0%Z -> c < THROTTLE_HYST_HIGH p ->
     state (sThrottle g') = 0%Z /\ out == 0)
  /\ (state (sThrottle g) = 0%Z -> THROTTLE_HYST_HIGH p <= c ->
        state (sThrottle g') = 1%Z /\ out = rate_limit p (prev_output g) c)
  /\ (state (sThrottle g) <> 0%Z -> c <= THROTTLE_HYST_LOW p ->
        state (sThrottle g') = 0%Z /\ out == 0)
  /\ (state (sThrottle g) <> 0%Z -> THROTTLE_HYST_LOW p < c ->
        state (sThrottle g') = state (sThrottle g)
        /\ out = rate_limit p (prev_output g) c)
  /\ (forall g0 samples,
        between_thresholds p g0 samples ->
        state (sThrottle (fst (run p g0 samples))) = state (sThrottle g0)).
Proof.
  intros Hs Hp Hc g' out. subst g' out.
  destruct (gate_step p g v c Hc) as (-> & -> & _).
  repeat split; intros.
  - rewrite gate_off_below by assumption. assumption.
  - rewrite gate_off_below by assumption. cbn [snd].
    apply rate_limit_zero; assumption.
  - rewrite gate_off_reach by assumption. reflexivity.
  - rewrite gate_off_reach by assumption. reflexivity.
  - rewrite gate_on_fall by assumption. reflexivity.
  - rewrite gate_on_fall by assumption. cbn [snd].
    apply rate_limit_zero; assumption.
  - rewrite gate_on_pass by assumption. reflexivity.
  - rewrite gate_on_pass by assumption. reflexivity.
  - apply latch_kept_run. assumption.
Qed.

(** C6. Two consecutive calls on the Normal path: the second command exceeds
    the first by at most [THROTTLE_SLEW_RATE]; each command is stored as the
    last output; and a gated command that does not rise by more than the
    slew rate, in particular one that falls by any amount, is returned as it
    is. *)
Theorem C6_upward_slew_limit (p : Params) (g : Globals) (v1 v2 : Q) :
  throttle_path p g v1 = Normal ->
  throttle_path p (fst (throttle_process p g v1)) v2 = Normal ->
  let g1 := fst (throttle_process p g v1) in
  let r1 := snd (throttle_process p g v1) in
  let g2 := fst (throttle_process p g1 v2) in
  let r2 := snd (throttle_process p g1 v2) in
  r2 <= r1 + THROTTLE_SLEW_RATE p
  /\ prev_output g1 = r1
  /\ prev_output g2 = r2
  /\ (forall c, clipped_cmd p g1 v2 = Some c ->
        snd (hysteresis p (sThrottle g1) c) - r1 <= THROTTLE_SLEW_RATE p ->
        r2 = snd (hysteresis p (sThrottle g1) c)).
Proof.
  intros H1 H2 g1 r1 g2 r2. subst g1 r1 g2 r2.
  apply clipped_cmd_path in H1. destruct H1 as [c1 H1].
  apply clipped_cmd_path in H2. destruct H2 as [c2 H2].
  destruct (gate_step p g v1 c1 H1) as (_ & _ & P1).
  destruct (gate_step p _ v2 c2 H2) as (_ & R2 & P2).
  repeat split.
  - rewrite R2, P1. apply rate_limit_le.
  - exact P1.
  - exact P2.
  - intros c Hc Hle. assert (c = c2) by congruence. subst c.
    rewrite R2 at 1. rewrite P1. apply rate_limit_pass. exact Hle.
Qed.

Lemma C5_witness :
  let p := default_params in
  let g := idle_channel in
  let v := 0.86 in
  let c := clip ((0.86 - 0.85) * (1.0 / 1.35)) in
  0 <= THROTTLE_SLEW_RATE p /\ 0 <= prev_output g
  /\ clipped_cmd p g v = Some c
  /\ (state (sThrottle g) = 0%Z /\ c < THROTTLE_HYST_HIGH p)
  /\ state (sThrottle (fst (throttle_process p g v))) = 0%Z
  /\ snd (throttle_process p g v) == 0
  /\ (between_thresholds p g [] ->
      state (sThrottle (fst (run p g []))) = state (sThrottle g)).
Proof.
  intros p g v c.
  assert (H1 : 0 <= THROTTLE_SLEW_RATE p) by (unfold Qle; simpl; lia).
  assert (H2 : 0 <= prev_output g) by (unfold Qle; simpl; lia).
  assert (H3 : clipped_cmd p g v = Some c) by (vm_compute; reflexivity).
  assert (H4 : state (sThrottle g) = 0%Z) by reflexivity.
  assert (H5 : c < THROTTLE_HYST_HIGH p) by (vm_compute; reflexivity).
  pose proof (C5_hysteresis_gate p g v c H1 H2 H3) as (Off & _ & _ & _ & Seq).
  destruct (Off H4 H5) as [S0 O0].
  split; [exact H1|]. split; [exact H2|]. split; [exact H3|].
  split; [split; [exact H4 | exact H5]|].
  split; [exact S0|]. split; [exact O0|].
  exact (Seq g []).
Defined.

Lemma C6_witness :
  let p := default_params in
  let g := idle_channel in
  let g1 := fst (throttle_process p g 1.5) in
  let r1 := snd (throttle_process p g 1.5) in
  let g2 := fst (throttle_process p g1 1.6) in
  let r2 := snd (throttle_process p g1 1.6) in
  throttle_path p g 1.5 = Normal
  /\ throttle_path p g1 1.6 = Normal
  /\ r2 <= r1 + THROTTLE_SLEW_RATE p
  /\ prev_output g1 = r1
  /\ prev_output g2 = r2.
Proof.
  intros p g g1 r1 g2 r2.
  assert (H1 : throttle_path p g 1.5 = Normal) by (vm_compute; reflexivity).
  assert (H2 : throttle_path p (fst (throttle_process p g 1.5)) 1.6 = Normal)
    by (vm_compute; reflexivity).
  pose proof (C6_upward_slew_limit p g 1.5 1.6 H1 H2) as (A & B & C & _).
  repeat split; assumption.
Defined.

(** The command may fall from full scale to zero in one period. *)
Example full_drop_in_one_period :
  let p := default_params in
  let g := mkGlobals (mkBiquad 0 0 [])
             (mkAnalog 1 1001 0.85 2.20 (1.0 / 1.35)) 0.99 in
  throttle_path p g 0.85 = Normal
  /\ prev_output g == 0.99
  /\ snd (throttle_process p g 0.85) == 0.
Proof. vm_compute. repeat split; reflexivity. Qed.

End ThrottleClaims.

(** ** Calibration: startup, re-entry and the raised maximum *)

Section ThrottleCalibration.
Import Throttle.

(** The counter stays within [0, THROTTLE_START_TIME + 1], so the width of
    the C counter plays no role. *)
Lemma startup_count_bounded (p : Params) (g : Globals) (v : Q) :
  (0 <= THROTTLE_START_TIME p)%Z ->
  (0 <= startup_count (sThrottle g) <= THROTTLE_START_TIME p + 1)%Z ->
  (0 <= startup_count (sThrottle (fst (throttle_process p g v)))
     <= THROTTLE_START_TIME p + 1)%Z.
Proof.
  intros H0 Hc. unfold throttle_process.
  destruct (Z.ltb_spec (startup_count (sThrottle g)) (THROTTLE_START_TIME p)).
  - cbn. destruct (_ <=? _)%Z; cbn; lia.
  - assert (Hs : (0 <= startup_count
                         (if (startup_count (sThrottle g) =? THROTTLE_START_TIME p)%Z
                          then finish_startup p (sThrottle g) else sThrottle g)
                    <= THROTTLE_START_TIME p + 1)%Z).
    { destruct (Z.eqb_spec (startup_count (sThrottle g)) (THROTTLE_START_TIME p));
        [|lia].
      unfold finish_startup. cbn.
      repeat match goal with |- context [if ?b then _ else _] => destruct b end;
        cbn; lia. }
    set (s0 := if (startup_count (sThrottle g) =? THROTTLE_START_TIME p)%Z
               then finish_startup p (sThrottle g) else sThrottle g) in *.
    destruct (_ <? min s0 - _); cbn; [lia|].
    unfold raise_max, hysteresis.
    repeat match goal with |- context [if ?b then _ else _] => destruct b end;
      cbn; lia.
Qed.


(** Re-entry: the counter restarts from zero and the call returns zero; the
    accumulator [min] is left as it is. *)
Lemma reentry_step (p : Params) (g : Globals) (v : Q) :
  throttle_path p g v = Reentry ->
  startup_count (sThrottle (fst (throttle_process p g v))) = 0%Z
  /\ snd (throttle_process p g v) = 0.0
  /\ ((THROTTLE_START_TIME p < startup_count (sThrottle g))%Z ->
      min (sThrottle (fst (throttle_process p g v))) = min (sThrottle g)).
Proof.
  unfold throttle_path, throttle_process.
  destruct (Z.ltb_spec (startup_count (sThrottle g)) (THROTTLE_START_TIME p));
    [discriminate|].
  destruct (Z.eqb_spec (startup_count (sThrottle g)) (THROTTLE_START_TIME p)).
  - destruct (_ <? _); [|discriminate]. intros _. cbn. repeat split. lia.
  - destruct (_ <? _); [|discriminate]. intros _. cbn. auto.
Qed.



(** The raised maximum by itself touches [max] and [scale_factor] only. *)
Lemma raise_max_frame (p : Params) (y : Q) (s : Throttle_Analog_Type) :
  state (raise_max p y s) = state s
  /\ startup_count (raise_max p y s) = startup_count s
  /\ min (raise_max p y s) = min s.
Proof. unfold raise_max. destruct (_ <? y); cbn; auto. Qed.

(** C3 (evaluation of the code on the scenario). From power-up, with the
    filtered input held at 1.0 V: the first 499 samples are discarded, the
    500th is already accumulated, 501 samples are in the sum when the counter
    reaches 1000, and the completing call divides by 500, finds 1.002 above
    the sane range and takes the 0.85 default; with max = 2.2 the scale is
    1/1.35 and a 1.5 V input gives a clipped command of 13/27 (0.4815), not
    0.4167. *)
Theorem C3_startup_scenario_on_code :
  let p := default_params in
  let after n := fst (run p power_up (repeat 1 n)) in
  min (sThrottle (after 499%nat)) == 0
  /\ min (sThrottle (after 500%nat)) == 1
  /\ startup_count (sThrottle (after 1000%nat)) = 1000%Z
  /\ min (sThrottle (after 1000%nat)) == 501
  /\ startup_count (sThrottle (after 1001%nat)) = 1001%Z
  /\ min (sThrottle (after 1001%nat)) == 0.85
  /\ max (sThrottle (after 1001%nat)) == 2.2
  /\ scale_factor (sThrottle (after 1001%nat)) == 1 / (2.2 - 0.85)
  /\ exists c, clipped_cmd p (after 1001%nat) 1.5 = Some c
               /\ c == 13 # 27
               /\ ~ c == (1.5 - 1.0) * (1 / (2.2 - 1.0)).
Proof.
  intros p after.
  do 8 (split; [vm_compute; reflexivity|]).
  exists (6500000000 # 13500000000).
  split; [vm_compute; reflexivity|].
  split; [vm_compute; reflexivity|].
  apply Qeq_bool_neq. vm_compute. reflexivity.
Qed.

(** C7 (evaluation of the code). A calibrated channel at rest receives
    0.5 V, below [min] by more than the guard margin: the call is a
    re-entry, returns zero and restarts the counter, but keeps the old
    minimum in the accumulator; after the next startup with the input held at
    0.5 V the learned minimum is (old min + 501 * 0.5) / 500 = 0.5027, not
    the average 0.5 of the new samples. *)
Theorem C7_recalibration_on_code :
  let p := default_params in
  let g := calibrated_at_rest in
  let g1 := fst (throttle_process p g (1 # 2)) in
  let g2 := fst (run p g1 (repeat (1 # 2) 1001)) in
  throttle_path p g (1 # 2) = Reentry
  /\ snd (throttle_process p g (1 # 2)) == 0
  /\ startup_count (sThrottle g1) = 0%Z
  /\ min (sThrottle g1) = min (sThrottle g)
  /\ startup_count (sThrottle g2) = 1001%Z
  /\ min (sThrottle g) == 0.85
  /\ min (sThrottle g2) == (0.85 + 501 * 0.5) / 500
  /\ ~ min (sThrottle g2) == 0.5.
Proof.
  intros p g g1 g2.
  do 7 (split; [vm_compute; reflexivity|]).
  apply Qeq_bool_neq. vm_compute. reflexivity.
Qed.

(** At rest after calibration, a 2.5 V reading is above [max] by more than
    the guard margin: the call raises [max], and it also switches the latch
    on, since the command it then computes is full scale. *)
Lemma C8_counterexample :
  ~ max_update_frame_claim default_params calibrated_at_rest 2.5.
Proof.
  unfold max_update_frame_claim. intros H.
  assert (P : max (sThrottle calibrated_at_rest)
              + THROTTLE_RANGE_LIMIT default_params
              < Y (filter_step default_params
                     (Throttle_filt calibrated_at_rest) 2.5))
    by (vm_compute; reflexivity).
  destruct (H P) as (_ & _ & _ & _ & Hstate).
  vm_compute in Hstate. discriminate Hstate.
Qed.

Lemma full_scale_after_raise (y m : Q) :
  ~ y == m -> clip ((y - m) * (1.0 / (y - m))) == 0.99.
Proof.
  intros Hne.
  assert (Hx : (y - m) * (1.0 / (y - m)) == 1).
  { field. intros E. apply Hne. lra. }
  set (x := (y - m) * (1.0 / (y - m))) in *.
  unfold clip, THROTTLE_OUTPUT_MIN, THROTTLE_OUTPUT_MAX.
  destruct (Qltb_spec x 0.00); [lra|].
  destruct (Qltb_spec 0.99 x); [reflexivity | lra].
Qed.

(** C8 (as the code has it). Once the startup routine is over, a filtered
    input above [max] by more than the guard margin (and not below the
    re-entry level) makes [throttle_process] set [max] to that input and
    [scale_factor] to [1/(max - min)]; the counter and [min] are unchanged
    and there is no restart.  The call then goes on with the regular
    processing on the new scale: the clipped command is full scale (when the
    input differs from [min]), the latch is what the hysteresis gate makes of
    it and the rate-limited command is stored as the last output. *)
Theorem C8_max_raised_in_place (p : Params) (g : Globals) (v : Q) :
  let y := Y (filter_step p (Throttle_filt g) v) in
  let s := sThrottle g in
  (THROTTLE_START_TIME p < startup_count s)%Z ->
  min s - THROTTLE_RANGE_LIMIT p <= y ->
  max s + THROTTLE_RANGE_LIMIT p < y ->
  let g' := fst (throttle_process p g v) in
  let c := clip ((y - min s) * (1.0 / (y - min s))) in
  throttle_path p g v = Normal
  /\ max (sThrottle g') = y
  /\ scale_factor (sThrottle g') = 1.0 / (y - min s)
  /\ startup_count (sThrottle g') = startup_count s
  /\ min (sThrottle g') = min s
  /\ clipped_cmd p g v = Some c
  /\ (~ y == min s -> c == 0.99)
  /\ state (sThrottle g') = state (fst (hysteresis p s c))
  /\ prev_output g' = rate_limit p (prev_output g) (snd (hysteresis p s c))
  /\ snd (throttle_process p g v) = prev_output g'.
Proof.
  intros y s Hcount Hlo Hhi g' c.
  assert (E1 : (startup_count s <? THROTTLE_START_TIME p)%Z = false)
    by (apply Z.ltb_ge; lia).
  assert (E2 : (startup_count s =? THROTTLE_START_TIME p)%Z = false)
    by (apply Z.eqb_neq; lia).
  assert (E3 : (y <? min s - THROTTLE_RANGE_LIMIT p) = false)
    by (destruct (Qltb_spec y (min s - THROTTLE_RANGE_LIMIT p));
        [lra | reflexivity]).
  assert (E4 : (max s + THROTTLE_RANGE_LIMIT p <? y) = true)
    by (destruct (Qltb_spec (max s + THROTTLE_RANGE_LIMIT p) y);
        [reflexivity | lra]).
  assert (Hpath : throttle_path p g v = Normal).
  { unfold throttle_path. fold y s. rewrite E1, E2, E3. reflexivity. }
  assert (Hc : clipped_cmd p g v = Some c).
  { unfold clipped_cmd. rewrite Hpath. fold y s. rewrite E2.
    unfold raise_max. rewrite E4. reflexivity. }
  assert (Hproc : throttle_process p g v =
                  (mkGlobals (filter_step p (Throttle_filt g) v)
                     (fst (hysteresis p
                             (set_scale_factor (1.0 / (y - min s)) (set_max y s)) c))
                     (rate_limit p (prev_output g)
                        (snd (hysteresis p
                                (set_scale_factor (1.0 / (y - min s)) (set_max y s)) c))),
                   rate_limit p (prev_output g)
                     (snd (hysteresis p
                             (set_scale_factor (1.0 / (y - min s)) (set_max y s)) c)))).
  { unfold throttle_process. fold y s. rewrite E1, E2, E3.
    unfold raise_max. rewrite E4. cbn -[clip hysteresis rate_limit].
    fold c. destruct (hysteresis p _ c). reflexivity. }
  destruct (hysteresis_state_only p
              (set_scale_factor (1.0 / (y - min s)) (set_max y s)) s c eq_refl)
    as [Hsnd Hst].
  subst g'. rewrite Hproc. cbn [fst snd sThrottle prev_output].
  rewrite Hsnd, Hst.
  assert (Hframe : forall t,
    max (fst (hysteresis p (set_scale_factor (1.0 / (y - min s)) (set_max y s)) t)) = y
    /\ scale_factor (fst (hysteresis p
          (set_scale_factor (1.0 / (y - min s)) (set_max y s)) t)) = 1.0 / (y - min s)
    /\ startup_count (fst (hysteresis p
          (set_scale_factor (1.0 / (y - min s)) (set_max y s)) t)) = startup_count s
    /\ min (fst (hysteresis p
          (set_scale_factor (1.0 / (y - min s)) (set_max y s)) t)) = min s).
  { intros t. unfold hysteresis.
    repeat match goal with |- context [if ?b then _ else _] => destruct b end;
      cbn; auto. }
  destruct (Hframe c) as (F1 & F2 & F3 & F4).
  split; [exact Hpath|]. split; [exact F1|]. split; [exact F2|].
  split; [exact F3|]. split; [exact F4|]. split; [exact Hc|].
  split; [apply full_scale_after_raise|].
  split; [reflexivity|]. split; reflexivity.
Qed.

Lemma C8_witness :
  let p := default_params in
  let g := idle_channel in
  let g' := fst (throttle_process p g 2.5) in
  ((THROTTLE_START_TIME p < startup_count (sThrottle g))%Z
   /\ min (sThrottle g) - THROTTLE_RANGE_LIMIT p <= 2.5
   /\ max (sThrottle g) + THROTTLE_RANGE_LIMIT p < 2.5)
  /\ max (sThrottle g') = 2.5
  /\ scale_factor (sThrottle g') = 1.0 / (2.5 - min (sThrottle g))
  /\ startup_count (sThrottle g') = startup_count (sThrottle g)
  /\ min (sThrottle g') = min (sThrottle g).
Proof.
  intros p g g'.
  assert (H1 : (THROTTLE_START_TIME p < startup_count (sThrottle g))%Z)
    by (simpl; lia).
  assert (H2 : min (sThrottle g) - THROTTLE_RANGE_LIMIT p <= 2.5)
    by (unfold Qle; simpl; lia).
  assert (H3 : max (sThrottle g) + THROTTLE_RANGE_LIMIT p < 2.5)
    by (unfold Qlt; simpl; lia).
  pose proof (C8_max_raised_in_place p g 2.5 H1 H2 H3)
    as (_ & A & B & C & D & _).
  split; [split; [exact H1 | split; [exact H2 | exact H3]]|].
  split; [exact A|]. split; [exact B|]. split; [exact C | exact D].
Defined.

End ThrottleCalibration.

(** ** The pedal-assist step *)

Section PasClaims.
Import PAS.

(** On channel 2 a falling edge leaves the counter and the filtered speed
    alone, where section 4.3 resets the one and updates the other; on a
    rising edge the code filters [time_counter / 1000], not the inverse of
    the elapsed time. *)
Lemma C4_counterexample :
  ~ pas_claim default_params falling_edge_io falling_edge_state 2
  /\ ~ pas_claim default_params rising_edge_io rising_edge_state 2.
Proof.
  split; intros [Hcount Hspeed].
  - vm_compute in Hcount. discriminate Hcount.
  - vm_compute in Hspeed. discriminate Hspeed.
Qed.

(** Any other channel number: the function returns at once. *)
Lemma pas_other_channel (p : Params) (io : Ports) (s : Throttle_PAS_Type)
    (thrnum : Z) :
  thrnum <> 1%Z -> thrnum <> 2%Z ->
  throttle_pas_process p io s thrnum = (s, None).
Proof.
  intros H1 H2. unfold throttle_pas_process.
  destruct (Z.eqb_spec thrnum 1); [contradiction|].
  destruct (Z.eqb_spec thrnum 2); [contradiction|]. reflexivity.
Qed.

(** With the pin on bit 5 the sample is 0 or 32, never 1. *)
Lemma read_pin_5 (idr : Z) : read_pin idr 5 <> 1%Z.
Proof.
  unfold read_pin. intros H.
  apply (f_equal (fun z => Z.testbit z 0)) in H.
  rewrite !Z.land_spec in H. cbn in H.
  rewrite andb_false_r in H. discriminate H.
Qed.

(** C4 (as the code has it). One call on channel 1 or 2, with [level] the
    sampled pin value: if [level] equals the stored last reading the
    elapsed-time counter is incremented; if it differs and is 1 (rising
    edge) the last reading becomes 1, the filtered speed becomes
    [(time_counter / 1000) * W + filtered * (1 - W)] and the counter is
    reset; if it differs and is not 1 only the last reading is updated.
    The local [thr_output] ends as [filtered * scale_factor] clamped to
    [0.00, 0.99]. *)
Theorem C4_pas_step (p : Params) (io : Ports) (s : Throttle_PAS_Type)
    (thrnum : Z) :
  thrnum = 1%Z \/ thrnum = 2%Z ->
  let level := sampled_level p io thrnum in
  let s' := fst (throttle_pas_process p io s thrnum) in
  (level = last_reading s ->
     s' = set_time_counter (time_counter s + 1) s)
  /\ (level <> last_reading s -> level = 1%Z ->
        s' = mkPAS 1 0
               ((inject_Z (time_counter s) / 1000.0) * PAS_FILTER p
                + filtered_speed s * (1 - PAS_FILTER p))
               (scale_factor s))
  /\ (level <> last_reading s -> level <> 1%Z ->
        s' = set_last_reading level s)
  /\ exists out,
       snd (throttle_pas_process p io s thrnum) = Some out
       /\ out = Throttle.clip (filtered_speed s' * scale_factor s')
       /\ 0 <= out <= 0.99.
Proof.
  intros Hn level s'.
  assert (E : throttle_pas_process p io s thrnum =
    (let s1 :=
       if negb (level =? last_reading s)%Z
       then if (level =? 1)%Z
            then mkPAS level 0
                   ((inject_Z (time_counter s) / 1000.0) * PAS_FILTER p
                    + filtered_speed s * (1 - PAS_FILTER p))
                   (scale_factor s)
            else set_last_reading level s
       else set_time_counter (time_counter s + 1) s in
     (s1, Some (Throttle.clip (filtered_speed s1 * scale_factor s1))))).
  { unfold throttle_pas_process, level, sampled_level.
    destruct Hn as [-> | ->]; cbn [Z.eqb Pos.eqb];
      destruct (negb _); [destruct (_ =? 1)%Z | | destruct (_ =? 1)%Z | ];
      reflexivity. }
  subst s'. rewrite E. cbn [fst snd].
  split; [|split; [|split]].
  - intros H. rewrite H, Z.eqb_refl. reflexivity.
  - intros H1 H2. apply Z.eqb_neq in H1. rewrite H1. cbn [negb].
    rewrite H2. reflexivity.
  - intros H1 H2. apply Z.eqb_neq in H1, H2. rewrite H1, H2. reflexivity.
  - eexists. split; [reflexivity|]. split; [reflexivity|].
    pose proof (clip_range
      (filtered_speed
         (if negb (level =? last_reading s)%Z
          then if (level =? 1)%Z
               then mkPAS level 0
                      ((inject_Z (time_counter s) / 1000.0) * PAS_FILTER p
                       + filtered_speed s * (1 - PAS_FILTER p))
                      (scale_factor s)
               else set_last_reading level s
          else set_time_counter (time_counter s + 1) s)
       * scale_factor
           (if negb (level =? last_reading s)%Z
            then if (level =? 1)%Z
                 then mkPAS level 0
                        ((inject_Z (time_counter s) / 1000.0) * PAS_FILTER p
                         + filtered_speed s * (1 - PAS_FILTER p))
                        (scale_factor s)
                 else set_last_reading level s
            else set_time_counter (time_counter s + 1) s))) as R.
    unfold Throttle.THROTTLE_OUTPUT_MIN, Throttle.THROTTLE_OUTPUT_MAX in R.
    lra.
Qed.

Lemma C4_witness :
  let p := default_params in
  let s' := fst (throttle_pas_process p rising_edge_io rising_edge_state 2) in
  (2 = 1 \/ 2 = 2)%Z
  /\ (sampled_level p rising_edge_io 2 <> last_reading rising_edge_state
      /\ sampled_level p rising_edge_io 2 = 1%Z)
  /\ s' = mkPAS 1 0
            ((inject_Z (time_counter rising_edge_state) / 1000.0) * PAS_FILTER p
             + filtered_speed rising_edge_state * (1 - PAS_FILTER p))
            (scale_factor rising_edge_state).
Proof.
  intros p s'.
  assert (H0 : (2 = 1 \/ 2 = 2)%Z) by (right; reflexivity).
  assert (H1 : sampled_level p rising_edge_io 2 <> last_reading rising_edge_state)
    by (vm_compute; discriminate).
  assert (H2 : sampled_level p rising_edge_io 2 = 1%Z) by reflexivity.
  pose proof (C4_pas_step p rising_edge_io rising_edge_state 2 H0)
    as (_ & Rise & _).
  split; [exact H0|]. split; [split; [exact H1 | exact H2]|].
  exact (Rise H1 H2).
Defined.

End PasClaims.

(** ** The two interrupts *)

Section MainClaims.
Import Main FastContextSpec.

(** At rest, with the throttle released and no phase current, the current
    loop of section 4.4 asks for centred duties, while [MAIN_MotorISR]
    writes the duties of its fixed test vector. *)
Lemma C2_counterexample :
  ~ fast_context_claim Doubles.collaborators Doubles.park Doubles.at_rest.
Proof.
  unfold fast_context_claim. intros H. vm_compute in H.
  inversion H as [|x y l l' Hd Hrest]. destruct Hd as (Ha & _).
  discriminate Ha.
Qed.

(** C2 (as the code has it). On every fast-context period [MAIN_MotorISR]
    advances the debug ramp and the rotor estimator's tick, records the
    estimator's angle, speed and state and the three measured phase
    currents, and writes to the PWM outputs the three duties that the
    modulator computes from the inverse rotating-frame transform of the
    constant vector (0.75, 0) at the ramp angle.  The measured currents, the
    rotor angle, the PID regulators and the throttle command take no part in
    the duties; the PID state and the throttle command are left as they
    are. *)
Theorem C2_fast_context_on_code (W : Type) (c : Collaborators W) (m : Machine W) :
  let m' := exec (MAIN_MotorISR c) m in
  let evs := events (MAIN_MotorISR c) m in
  let ramp := FOC_RampGen c (DBG_RampAngle m) (DBG_RampIncrement m) in
  let sc := CORDIC_CalcSinCos c (ramp * 2.0 - 1.0) in
  let ab := FOC_Ipark c 0.75 0.0 (fst sc) (snd sc) in
  let duties := FOC_SVM c (fst ab) (snd ab) in
  world m' = ADC_InjSeqComplete c (HALL_IncAngle c (world m))
  /\ Mobv m' = mkObservations
                 (HALL_GetAngleF c (HALL_IncAngle c (world m)))
                 (HALL_GetSpeedF c (HALL_IncAngle c (world m)))
                 (HALL_GetState c (HALL_IncAngle c (world m)))
                 (ADC_GetCurrent c (world m') ADC_IA)
                 (ADC_GetCurrent c (world m') ADC_IB)
                 (ADC_GetCurrent c (world m') ADC_IC)
  /\ DBG_RampAngle m' = ramp
  /\ duties_written evs = [duties]
  /\ Mpwm m' = mkDuties (fst (fst duties)) (snd (fst duties)) (snd duties)
  /\ Mpid_Id m' = Mpid_Id m
  /\ Mpid_Iq m' = Mpid_Iq m
  /\ Mctrl m' = Mctrl m.
Proof.
  intros m' evs ramp sc ab duties. subst m' evs duties ab sc ramp.
  unfold exec, events, MAIN_MotorISR, bind, call, modify, get, emit.
  cbn -[to_uint16 Qmult Qminus Z.modulo Z.shiftl Z.add].
  destruct (CORDIC_CalcSinCos c _) as [sn cs].
  cbn -[to_uint16 Qmult Qminus Z.modulo Z.shiftl Z.add].
  destruct (FOC_Ipark c _ _ sn cs) as [al be].
  cbn -[to_uint16 Qmult Qminus Z.modulo Z.shiftl Z.add].
  destruct (FOC_SVM c al be) as [[ta tb] tc].
  cbn -[to_uint16 Qmult Qminus Z.modulo Z.shiftl Z.add].
  repeat split.
Qed.

(** In a period that is neither the 500th nor the 1000th of the LED cycle
    the interrupt does not touch the LED, and it never feeds the watchdog. *)
Lemma C9_counterexample :
  ~ slow_context_claim Doubles.collaborators Doubles.at_rest.
Proof.
  unfold slow_context_claim. intros (_ & Hled & _).
  vm_compute in Hled. discriminate Hled.
Qed.

(** C9 (as the code has it). On every slow-context period
    [MAIN_AppTimerISR] completes the slow ADC sequence, advances the throttle
    conditioner and publishes its command in [Mctrl.ThrottleCommand]; it
    drives the status LED low when its period counter reaches 500 and high
    (restarting the counter) when it reaches 1000, and leaves it alone in
    every other period; it does not feed the watchdog, which is fed by the
    background loop of [main]. *)
Theorem C9_slow_context_on_code (W : Type) (c : Collaborators W) (m : Machine W) :
  let m' := exec (MAIN_AppTimerISR c) m in
  let evs := events (MAIN_AppTimerISR c) m in
  let t := ((led_timer m + 1) mod 65536)%Z in
  world m' = THROTTLE_Process c (ADC_RegSeqComplete c (world m))
  /\ Mctrl m' = mkControls (THROTTLE_GetCommand c (world m'))
  /\ filter is_LED_write evs
     = (if (t =? 500)%Z then [GPIO_Low_GLED] else [])
       ++ (if (1000 <=? t)%Z then [GPIO_High_GLED] else [])
  /\ led_timer m' = (if (1000 <=? t)%Z then 0 else t)%Z
  /\ existsb is_WDT_Feed evs = false
  /\ events (@main_loop_body W) m
     = [WDT_Feed; USB_Data_Comm_OneByte_Check; LIVE_SendPacket].
Proof.
  intros m' evs t. subst m' evs.
  unfold exec, events, MAIN_AppTimerISR, main_loop_body, bind, call, modify,
    get, emit, when, ret.
  cbn -[Z.modulo Z.eqb Z.leb Z.land]. fold t.
  destruct (t =? 500)%Z; destruct (1000 <=? t)%Z;
    cbn -[Z.modulo Z.eqb Z.leb Z.land]; repeat split.
Qed.

(** Over one thousand periods from a cleared counter the LED is written
    twice: low, then high. *)
Example led_cycle :
  filter is_LED_write (snd (Doubles.app_periods 1000 Doubles.at_rest))
  = [GPIO_Low_GLED; GPIO_High_GLED]
  /\ led_timer (fst (Doubles.app_periods 1000 Doubles.at_rest)) = 0%Z.
Proof. split; vm_compute; reflexivity. Qed.

End MainClaims.

(** * Further properties of the code *)

(** ** Calibration invariants of [throttle_process] *)

Section CalibrationInvariants.
Import Throttle ThrottleInvariants.

Lemma filter_stepped (p : Params) (g : Globals) (v : Q) :
  Throttle_filt (fst (throttle_process p g v))
  = filter_step p (Throttle_filt g) v.
Proof.
  unfold throttle_process.
  destruct (_ <? _)%Z; [reflexivity|].
  destruct (_ <? _ - _); [reflexivity|].
  destruct (hysteresis p _ _). reflexivity.
Qed.

Lemma finish_startup_sane (p : Params) (s : Throttle_Analog_Type) :
  let s' := finish_startup p s in
  startup_count s' = (startup_count s + 1)%Z
  /\ state s' = state s
  /\ 0.3 <= min s' /\ min s' <= 1.0
  /\ 1.5 <= max s' /\ max s' <= 3.0
  /\ scale_factor s' = 1.0 / (max s' - min s').
Proof.
  unfold finish_startup. cbn.
  set (a := min s / inject_Z (THROTTLE_START_TIME p - THROTTLE_START_DEADTIME p)).
  set (m := adcGetVref p - THROTTLE_DROPOUT p).
  unfold THROTTLE_MIN_DEFAULT, THROTTLE_MAX_DEFAULT.
  destruct (Qltb_spec 1.0 a); destruct (Qltb_spec a 0.3);
    destruct (Qltb_spec 3.0 m); destruct (Qltb_spec m 1.5);
    cbn; repeat split; try reflexivity; lra.
Qed.

Lemma hysteresis_frame (p : Params) (s : Throttle_Analog_Type) (c : Q) :
  startup_count (fst (hysteresis p s c)) = startup_count s
  /\ min (fst (hysteresis p s c)) = min s
  /\ max (fst (hysteresis p s c)) = max s
  /\ scale_factor (fst (hysteresis p s c)) = scale_factor s.
Proof.
  unfold hysteresis.
  repeat match goal with |- context [if ?b then _ else _] => destruct b end;
    cbn; auto.
Qed.

Lemma one_point_zero_div (x : Q) : 1.0 / x == 1 / x.
Proof. unfold Qdiv. assert (E : 1.0 == 1) by reflexivity. rewrite E. reflexivity. Qed.

(** The channel that reaches the re-entry test: its counter is past the
    start time and it is calibrated. *)
Lemma after_completion (p : Params) (s : Throttle_Analog_Type) :
  (THROTTLE_START_TIME p <= startup_count s)%Z ->
  calibrated p s ->
  let s0 := if (startup_count s =? THROTTLE_START_TIME p)%Z
            then finish_startup p s else s in
  (THROTTLE_START_TIME p < startup_count s0)%Z
  /\ state s0 = state s
  /\ 0.3 <= min s0 /\ min s0 <= 1.0 /\ 1.5 <= max s0
  /\ scale_factor s0 == 1 / (max s0 - min s0).
Proof.
  intros Hge Hcal.
  destruct (Z.eqb_spec (startup_count s) (THROTTLE_START_TIME p)) as [E|E]; cbn zeta.
  - destruct (finish_startup_sane p s) as (Hc & Hs & A & B & C & _ & F).
    rewrite F. repeat split; try assumption; try lia.
    apply one_point_zero_div.
  - destruct Hcal as (A & B & C & F); [lia|].
    repeat split; try assumption; lia.
Qed.

Lemma calibrated_step (p : Params) (g : Globals) (v : Q) :
  0 <= THROTTLE_RANGE_LIMIT p ->
  calibrated p (sThrottle g) ->
  calibrated p (sThrottle (fst (throttle_process p g v))).
Proof.
  intros HL Hcal. unfold throttle_process.
  destruct (Z.ltb_spec (startup_count (sThrottle g)) (THROTTLE_START_TIME p)) as [Hlt|Hge].
  - cbn. intros H. exfalso. destruct (_ <=? _)%Z; cbn in H; lia.
  - destruct (after_completion p (sThrottle g) Hge Hcal) as (Hc & _ & A & B & C & F).
    set (s0 := if (startup_count (sThrottle g) =? THROTTLE_START_TIME p)%Z
               then finish_startup p (sThrottle g) else sThrottle g) in *.
    destruct (_ <? min s0 - _).
    + cbn. intros _. auto.
    + assert (R : 0.3 <= min (raise_max p (Y (filter_step p (Throttle_filt g) v)) s0)
                  /\ min (raise_max p (Y (filter_step p (Throttle_filt g) v)) s0) <= 1.0
                  /\ 1.5 <= max (raise_max p (Y (filter_step p (Throttle_filt g) v)) s0)
                  /\ scale_factor (raise_max p (Y (filter_step p (Throttle_filt g) v)) s0)
                     == 1 / (max (raise_max p (Y (filter_step p (Throttle_filt g) v)) s0)
                             - min (raise_max p (Y (filter_step p (Throttle_filt g) v)) s0))).
      { unfold raise_max.
        destruct (Qltb_spec (max s0 + THROTTLE_RANGE_LIMIT p)
                            (Y (filter_step p (Throttle_filt g) v))); cbn.
        - repeat split; try assumption; try lra. apply one_point_zero_div.
        - auto. }
      set (s1 := raise_max p (Y (filter_step p (Throttle_filt g) v)) s0) in *.
      destruct (hysteresis_frame p s1
                  (clip ((Y (filter_step p (Throttle_filt g) v) - min s1)
                         * scale_factor s1))) as (_ & E2 & E3 & E4).
      destruct (hysteresis p s1 _) as [s2 t]. cbn in *.
      intros _. rewrite E2, E3, E4. exact R.
Qed.

Lemma inverse_distance_bounds (lo hi k : Q) :
  lo <= 1.0 -> 1.5 <= hi -> k == 1 / (hi - lo) ->
  0.5 <= hi - lo /\ 0 < k /\ k <= 2.
Proof.
  intros A B E. assert (D : 0.5 <= hi - lo) by lra.
  assert (P : 0 < hi - lo) by lra.
  split; [exact D|]. rewrite E. split.
  - apply Qlt_shift_div_l; [exact P | lra].
  - apply Qle_shift_div_r; [exact P | lra].
Qed.

(** X1. From any state that is calibrated (in particular any state still in
    startup, such as power-up), after any sequence of calls: whenever the
    counter is past the start time the learned minimum is in [0.3, 1.0],
    the maximum is at least 1.5, they are at least 0.5 V apart and the scale
    factor is the inverse of their distance, in (0, 2]: the scale is never
    computed from a zero or negative span. *)
Theorem X1_calibration_stays_sane (p : Params) (samples : list Q) (g : Globals) :
  0 <= THROTTLE_RANGE_LIMIT p ->
  calibrated p (sThrottle g) ->
  let s := sThrottle (fst (run p g samples)) in
  (THROTTLE_START_TIME p < startup_count s)%Z ->
  0.3 <= min s /\ min s <= 1.0 /\ 1.5 <= max s
  /\ scale_factor s == 1 / (max s - min s)
  /\ 0.5 <= max s - min s /\ 0 < scale_factor s /\ scale_factor s <= 2.
Proof.
  intros HL. revert g.
  assert (Hrun : forall g, calibrated p (sThrottle g) ->
                           calibrated p (sThrottle (fst (run p g samples)))).
  { induction samples as [|v rest IH]; intros g Hcal; cbn; [exact Hcal|].
    pose proof (calibrated_step p g v HL Hcal) as Hstep.
    destruct (throttle_process p g v) as [g1 out]. cbn in Hstep.
    specialize (IH g1 Hstep). destruct (run p g1 rest) as [g2 outs]. exact IH. }
  intros g Hcal s Hc. destruct (Hrun g Hcal Hc) as (A & B & C & F).
  destruct (inverse_distance_bounds (min s) (max s) (scale_factor s) B C F)
    as (D1 & D2 & D3).
  repeat split; assumption.
Qed.

Lemma X1_witness :
  let p := default_params in
  let s := sThrottle (fst (run p power_up (repeat 1 1001))) in
  0 <= THROTTLE_RANGE_LIMIT p
  /\ calibrated p (sThrottle power_up)
  /\ (THROTTLE_START_TIME p < startup_count s)%Z
  /\ 0.5 <= max s - min s /\ 0 < scale_factor s /\ scale_factor s <= 2.
Proof.
  intros p s.
  assert (H1 : 0 <= THROTTLE_RANGE_LIMIT p) by (unfold Qle; simpl; lia).
  assert (H2 : calibrated p (sThrottle power_up))
    by (intros H; vm_compute in H; discriminate H).
  assert (H3 : (THROTTLE_START_TIME p < startup_count s)%Z)
    by (vm_compute; reflexivity).
  pose proof (X1_calibration_stays_sane p (repeat 1 1001) power_up H1 H2 H3)
    as (_ & _ & _ & _ & D1 & D2 & D3).
  split; [exact H1|]. split; [exact H2|]. split; [exact H3|].
  split; [exact D1|]. split; [exact D2 | exact D3].
Defined.

End CalibrationInvariants.

(** ** Startup as a whole, floating input, ramp *)

Section StartupAndRamp.
Import Throttle ThrottleInvariants.

(** X2. The startup counter stays within [0, THROTTLE_START_TIME + 1] over
    any sequence of calls, so a counter type that holds
    [THROTTLE_START_TIME + 1] never wraps. *)
Theorem X2_startup_counter_bounded (p : Params) (samples : list Q) (g : Globals) :
  (0 <= THROTTLE_START_TIME p)%Z ->
  (0 <= startup_count (sThrottle g) <= THROTTLE_START_TIME p + 1)%Z ->
  (0 <= startup_count (sThrottle (fst (run p g samples)))
     <= THROTTLE_START_TIME p + 1)%Z.
Proof.
  intros H0. revert g. induction samples as [|v rest IH]; intros g Hc; cbn.
  - exact Hc.
  - pose proof (startup_count_bounded p g v H0 Hc) as Hstep.
    destruct (throttle_process p g v) as [g1 out]. cbn in Hstep.
    specialize (IH g1 Hstep). destruct (run p g1 rest) as [g2 outs]. exact IH.
Qed.

Lemma X2_witness :
  let p := default_params in
  let g := fst (run p power_up [1; 0.5; 2]) in
  (0 <= THROTTLE_START_TIME p)%Z
  /\ (0 <= startup_count (sThrottle power_up) <= THROTTLE_START_TIME p + 1)%Z
  /\ (0 <= startup_count (sThrottle g) <= THROTTLE_START_TIME p + 1)%Z.
Proof.
  intros p g.
  assert (H1 : (0 <= THROTTLE_START_TIME p)%Z) by (simpl; lia).
  assert (H2 : (0 <= startup_count (sThrottle power_up)
                  <= THROTTLE_START_TIME p + 1)%Z) by (simpl; lia).
  split; [exact H1|]. split; [exact H2|].
  exact (X2_startup_counter_bounded p [1; 0.5; 2] power_up H1 H2).
Defined.






Lemma below_sane_range_step (p : Params) (g : Globals) (v : Q) :
  calibrated p (sThrottle g) ->
  Y (filter_step p (Throttle_filt g) v) < 0.3 - THROTTLE_RANGE_LIMIT p ->
  throttle_path p g v <> Normal.
Proof.
  intros Hcal Hy. unfold throttle_path.
  destruct (Z.ltb_spec (startup_count (sThrottle g)) (THROTTLE_START_TIME p)) as [Hlt|Hge];
    [discriminate|].
  destruct (after_completion p (sThrottle g) Hge Hcal) as (_ & _ & A & _).
  set (s0 := if (startup_count (sThrottle g) =? THROTTLE_START_TIME p)%Z
             then finish_startup p (sThrottle g) else sThrottle g) in *.
  destruct (Qltb_spec (Y (filter_step p (Throttle_filt g) v))
                      (min s0 - THROTTLE_RANGE_LIMIT p)); [discriminate | lra].
Qed.

(** X4. While every filtered input is below the sane range by more than the
    guard margin (an open or grounded throttle line), a calibrated channel
    commands nothing: every call returns zero, and the latch and the stored
    last output are left as they were. *)
Theorem X4_input_below_sane_range_commands_nothing
    (p : Params) (samples : list Q) (g : Globals) :
  0 <= THROTTLE_RANGE_LIMIT p ->
  calibrated p (sThrottle g) ->
  Forall (fun y => y < 0.3 - THROTTLE_RANGE_LIMIT p)
         (filtered p (Throttle_filt g) samples) ->
  Forall (fun out => out = 0.0) (snd (run p g samples))
  /\ state (sThrottle (fst (run p g samples))) = state (sThrottle g)
  /\ prev_output (fst (run p g samples)) = prev_output g.
Proof.
  intros HL. revert g. induction samples as [|v rest IH]; intros g Hcal Hys; cbn.
  - repeat split. constructor.
  - cbn in Hys. inversion Hys as [|y ys Hy Hrest]; subst.
    pose proof (below_sane_range_step p g v Hcal Hy) as Hpath.
    destruct (throttle_process_early p g v Hpath) as (Hout & Hprev & Hst).
    pose proof (calibrated_step p g v HL Hcal) as Hcal1.
    pose proof (filter_stepped p g v) as Hf.
    destruct (throttle_process p g v) as [g1 out]. cbn in *.
    rewrite <- Hf in Hrest.
    destruct (IH g1 Hcal1 Hrest) as (A & B & C).
    destruct (run p g1 rest) as [g2 outs]. cbn in *.
    split; [constructor; assumption|]. split; congruence.
Qed.

Lemma X4_witness :
  let p := default_params in
  0 <= THROTTLE_RANGE_LIMIT p
  /\ calibrated p (sThrottle idle_channel)
  /\ Forall (fun y => y < 0.3 - THROTTLE_RANGE_LIMIT p)
            (filtered p (Throttle_filt idle_channel) [0; 0.1; 0])
  /\ Forall (fun out => out = 0.0) (snd (run p idle_channel [0; 0.1; 0])).
Proof.
  intros p.
  assert (H1 : 0 <= THROTTLE_RANGE_LIMIT p) by (unfold Qle; simpl; lia).
  assert (H2 : calibrated p (sThrottle idle_channel)).
  { intros _. cbn. repeat split; unfold Qle; simpl; lia. }
  assert (H3 : Forall (fun y => y < 0.3 - THROTTLE_RANGE_LIMIT p)
                      (filtered p (Throttle_filt idle_channel) [0; 0.1; 0])).
  { cbn. repeat constructor. }
  split; [exact H1|]. split; [exact H2|]. split; [exact H3|].
  exact (proj1 (X4_input_below_sane_range_commands_nothing p [0; 0.1; 0]
                  idle_channel H1 H2 H3)).
Defined.

Lemma slew_step (p : Params) (g : Globals) (v : Q) :
  0 <= THROTTLE_SLEW_RATE p -> 0 <= prev_output g ->
  snd (throttle_process p g v) <= prev_output g + THROTTLE_SLEW_RATE p
  /\ prev_output (fst (throttle_process p g v))
     <= prev_output g + THROTTLE_SLEW_RATE p
  /\ 0 <= prev_output (fst (throttle_process p g v)).
Proof.
  intros Hs Hp.
  destruct (throttle_process_range p g v Hs Hp) as [_ Hnn].
  destruct (clipped_cmd p g v) as [c|] eqn:Hc.
  - destruct (gate_step p g v c Hc) as (_ & Hout & Hprev).
    rewrite Hprev, Hout. repeat split; try apply rate_limit_le.
    rewrite <- Hout, <- Hprev. exact Hnn.
  - destruct (throttle_process_early p g v) as (Hout & Hprev & _).
    { intros Hn. apply clipped_cmd_path in Hn. destruct Hn as [c Hn]. congruence. }
    rewrite Hout, Hprev. repeat split; lra.
Qed.

(** X5. Ramp bound: whatever the inputs, the command returned by the k-th
    call of a sequence (counting from 1) is at most the last output stored
    before the sequence plus k times [THROTTLE_SLEW_RATE]. *)
Theorem X5_ramp_bound (p : Params) (samples : list Q) (g : Globals)
    (k : nat) (out : Q) :
  0 <= THROTTLE_SLEW_RATE p -> 0 <= prev_output g ->
  nth_error (snd (run p g samples)) k = Some out ->
  out <= prev_output g + inject_Z (Z.of_nat (S k)) * THROTTLE_SLEW_RATE p.
Proof.
  intros Hs. revert g k.
  induction samples as [|v rest IH]; intros g k Hp Hnth; cbn in Hnth.
  - destruct k; discriminate.
  - destruct (slew_step p g v Hs Hp) as (Hout & Hprev & Hnn).
    destruct (throttle_process p g v) as [g1 o1]. cbn [fst snd] in Hout, Hprev, Hnn.
    specialize (IH g1). destruct (run p g1 rest) as [g2 outs]. cbn [fst snd] in *.
    destruct k as [|k]; cbn [nth_error] in Hnth.
    + injection Hnth as <-. change (inject_Z (Z.of_nat 1)) with 1. lra.
    + specialize (IH k Hnn Hnth).
      rewrite (Nat2Z.inj_succ (S k)). unfold Z.succ. rewrite inject_Z_plus.
      set (n := inject_Z (Z.of_nat (S k))) in *.
      assert (E : (n + inject_Z 1) * THROTTLE_SLEW_RATE p
                  == n * THROTTLE_SLEW_RATE p + THROTTLE_SLEW_RATE p) by ring.
      rewrite E. lra.
Qed.

Lemma X5_witness :
  let p := default_params in
  0 <= THROTTLE_SLEW_RATE p /\ 0 <= prev_output idle_channel
  /\ nth_error (snd (run p idle_channel [2; 2; 2])) 2 = Some 0.0015000000000
  /\ 0.0015000000000 <= prev_output idle_channel + inject_Z (Z.of_nat 3) * THROTTLE_SLEW_RATE p.
Proof.
  intros p.
  assert (H1 : 0 <= THROTTLE_SLEW_RATE p) by (unfold Qle; simpl; lia).
  assert (H2 : 0 <= prev_output idle_channel) by (unfold Qle; simpl; lia).
  assert (H3 : nth_error (snd (run p idle_channel [2; 2; 2])) 2 = Some 0.0015000000000)
    by (vm_compute; reflexivity).
  split; [exact H1|]. split; [exact H2|]. split; [exact H3|].
  exact (X5_ramp_bound p [2; 2; 2] idle_channel 2 0.0015000000000 H1 H2 H3).
Defined.

End StartupAndRamp.

(** ** Normal operation: latch, calibration drift, transfer curve *)

Section NormalOperation.
Import Throttle ThrottleInvariants.

(** X6. A call that leaves the hysteresis latch off returns zero: a non-zero
    torque request is only ever returned with the latch on. *)
Theorem X6_latch_off_means_zero_command (p : Params) (g : Globals) (v : Q) :
  0 <= THROTTLE_SLEW_RATE p -> 0 <= prev_output g ->
  state (sThrottle (fst (throttle_process p g v))) = 0%Z ->
  snd (throttle_process p g v) == 0.
Proof.
  intros Hs Hp Hoff.
  destruct (clipped_cmd p g v) as [c|] eqn:Hc.
  - destruct (gate_step p g v c Hc) as (Est & Eout & _).
    rewrite Est in Hoff. rewrite Eout.
    destruct (Z.eq_dec (state (sThrottle g)) 0) as [E|E].
    + destruct (Qlt_le_dec c (THROTTLE_HYST_HIGH p)) as [Hlt|Hle].
      * rewrite gate_off_below by assumption. apply rate_limit_zero; assumption.
      * rewrite gate_off_reach in Hoff by assumption. discriminate Hoff.
    + destruct (Qlt_le_dec (THROTTLE_HYST_LOW p) c) as [Hlt|Hle].
      * rewrite gate_on_pass in Hoff by assumption. contradiction.
      * rewrite gate_on_fall by assumption. apply rate_limit_zero; assumption.
  - destruct (throttle_process_early p g v) as (-> & _); [|reflexivity].
    intros Hn. apply clipped_cmd_path in Hn. destruct Hn as [c Hn]. congruence.
Qed.

Lemma X6_witness :
  let p := default_params in
  0 <= THROTTLE_SLEW_RATE p /\ 0 <= prev_output idle_channel
  /\ state (sThrottle (fst (throttle_process p idle_channel 0.86))) = 0%Z
  /\ snd (throttle_process p idle_channel 0.86) == 0.
Proof.
  intros p.
  assert (H1 : 0 <= THROTTLE_SLEW_RATE p) by (unfold Qle; simpl; lia).
  assert (H2 : 0 <= prev_output idle_channel) by (unfold Qle; simpl; lia).
  assert (H3 : state (sThrottle (fst (throttle_process p idle_channel 0.86))) = 0%Z)
    by (vm_compute; reflexivity).
  split; [exact H1|]. split; [exact H2|]. split; [exact H3|].
  exact (X6_latch_off_means_zero_command p idle_channel 0.86 H1 H2 H3).
Defined.

(** The [Normal] path of a call made after the startup routine. *)
Lemma normal_after_startup (p : Params) (g : Globals) (v : Q) :
  (THROTTLE_START_TIME p < startup_count (sThrottle g))%Z ->
  throttle_path p g v = Normal ->
  let y := Y (filter_step p (Throttle_filt g) v) in
  let s1 := raise_max p y (sThrottle g) in
  let c := clip ((y - min s1) * scale_factor s1) in
  min (sThrottle g) - THROTTLE_RANGE_LIMIT p <= y
  /\ clipped_cmd p g v = Some c
  /\ sThrottle (fst (throttle_process p g v)) = fst (hysteresis p s1 c).
Proof.
  intros Hc Hpath y s1 c.
  assert (E1 : (startup_count (sThrottle g) <? THROTTLE_START_TIME p)%Z = false)
    by (apply Z.ltb_ge; lia).
  assert (E2 : (startup_count (sThrottle g) =? THROTTLE_START_TIME p)%Z = false)
    by (apply Z.eqb_neq; lia).
  assert (E3 : (y <? min (sThrottle g) - THROTTLE_RANGE_LIMIT p) = false).
  { unfold throttle_path in Hpath. rewrite E1, E2 in Hpath. fold y in Hpath.
    destruct (y <? _); [discriminate | reflexivity]. }
  split; [|split].
  - destruct (Qltb_spec y (min (sThrottle g) - THROTTLE_RANGE_LIMIT p));
      [discriminate | assumption].
  - unfold clipped_cmd. rewrite Hpath, E2. reflexivity.
  - unfold throttle_process. rewrite E1, E2. fold y. rewrite E3. fold s1 c.
    destruct (hysteresis p s1 c). reflexivity.
Qed.

(** X7. In normal operation (after startup, on the Normal path) the
    calibration only widens: the counter and the learned minimum are kept,
    and the maximum either stays or becomes the current filtered input,
    which is then above the old maximum. *)
Theorem X7_calibration_only_widens (p : Params) (g : Globals) (v : Q) :
  0 <= THROTTLE_RANGE_LIMIT p ->
  (THROTTLE_START_TIME p < startup_count (sThrottle g))%Z ->
  throttle_path p g v = Normal ->
  let s := sThrottle g in
  let s' := sThrottle (fst (throttle_process p g v)) in
  startup_count s' = startup_count s
  /\ min s' = min s
  /\ max s <= max s'
  /\ (max s' = max s \/ max s' = Y (filter_step p (Throttle_filt g) v)).
Proof.
  intros HL Hc Hpath s s'.
  destruct (normal_after_startup p g v Hc Hpath) as (_ & _ & E).
  subst s'. rewrite E.
  destruct (hysteresis_frame p
              (raise_max p (Y (filter_step p (Throttle_filt g) v)) (sThrottle g))
              (clip ((Y (filter_step p (Throttle_filt g) v)
                      - min (raise_max p (Y (filter_step p (Throttle_filt g) v))
                               (sThrottle g)))
                     * scale_factor
                         (raise_max p (Y (filter_step p (Throttle_filt g) v))
                            (sThrottle g)))))
    as (F1 & F2 & F3 & _).
  rewrite F1, F2, F3.
  destruct (raise_max_frame p (Y (filter_step p (Throttle_filt g) v)) (sThrottle g))
    as (_ & R1 & R2).
  rewrite R1, R2. split; [reflexivity|]. split; [reflexivity|].
  unfold raise_max. fold s.
  destruct (Qltb_spec (max s + THROTTLE_RANGE_LIMIT p)
                      (Y (filter_step p (Throttle_filt g) v))); cbn.
  - split; [lra | right; reflexivity].
  - split; [lra | left; reflexivity].
Qed.

Lemma X7_witness :
  let p := default_params in
  let s := sThrottle idle_channel in
  let s' := sThrottle (fst (throttle_process p idle_channel 2.5)) in
  0 <= THROTTLE_RANGE_LIMIT p
  /\ (THROTTLE_START_TIME p < startup_count s)%Z
  /\ throttle_path p idle_channel 2.5 = Normal
  /\ startup_count s' = startup_count s /\ min s' = min s /\ max s <= max s'.
Proof.
  intros p s s'.
  assert (H1 : 0 <= THROTTLE_RANGE_LIMIT p) by (unfold Qle; simpl; lia).
  assert (H2 : (THROTTLE_START_TIME p < startup_count s)%Z) by (simpl; lia).
  assert (H3 : throttle_path p idle_channel 2.5 = Normal) by (vm_compute; reflexivity).
  pose proof (X7_calibration_only_widens p idle_channel 2.5 H1 H2 H3)
    as (A & B & C & _).
  split; [exact H1|]. split; [exact H2|]. split; [exact H3|].
  split; [exact A|]. split; [exact B | exact C].
Defined.

Lemma clip_low (x : Q) : x <= 0 -> clip x == 0.
Proof.
  intros H. unfold clip, THROTTLE_OUTPUT_MIN, THROTTLE_OUTPUT_MAX.
  destruct (Qltb_spec x 0.00).
  - destruct (Qltb_spec 0.99 0.00); [lra | reflexivity].
  - destruct (Qltb_spec 0.99 x); lra.
Qed.

Lemma clip_high (x : Q) : 0.99 <= x -> clip x == 0.99.
Proof.
  intros H. unfold clip, THROTTLE_OUTPUT_MIN, THROTTLE_OUTPUT_MAX.
  destruct (Qltb_spec x 0.00); [lra|].
  destruct (Qltb_spec 0.99 x); [reflexivity | lra].
Qed.

Lemma clip_monotone (x y : Q) : x <= y -> clip x <= clip y.
Proof.
  intros H. unfold clip, THROTTLE_OUTPUT_MIN, THROTTLE_OUTPUT_MAX.
  destruct (Qltb_spec x 0.00); destruct (Qltb_spec y 0.00); qcases; lra.
Qed.

Lemma span_times_scale (d k t : Q) :
  0 < d -> k == 1 / d -> d <= t -> 1 <= t * k.
Proof.
  intros Hd Hk Ht.
  assert (Hkpos : 0 < k).
  { rewrite Hk. apply Qlt_shift_div_l; [exact Hd | lra]. }
  assert (E : d * k == 1) by (rewrite Hk; field; lra).
  rewrite <- E. apply Qmult_le_compat_r; [exact Ht | lra].
Qed.

(** X8. End points of the transfer curve of a calibrated channel in normal
    operation: a filtered input at or below the learned minimum gives a
    clipped command of 0, one at or above the learned maximum gives the full
    scale 0.99. *)
Theorem X8_transfer_end_points (p : Params) (g : Globals) (v c : Q) :
  0 <= THROTTLE_RANGE_LIMIT p ->
  (THROTTLE_START_TIME p < startup_count (sThrottle g))%Z ->
  calibrated p (sThrottle g) ->
  clipped_cmd p g v = Some c ->
  let y := Y (filter_step p (Throttle_filt g) v) in
  (y <= min (sThrottle g) -> c == 0)
  /\ (max (sThrottle g) <= y -> c == 0.99).
Proof.
  intros HL Hc Hcal Hclip y.
  destruct (Hcal Hc) as (A & B & C & F).
  assert (Hpath : throttle_path p g v = Normal)
    by (apply clipped_cmd_path; eauto).
  destruct (normal_after_startup p g v Hc Hpath) as (_ & E & _).
  fold y in E. rewrite E in Hclip. injection Hclip as <-.
  destruct (inverse_distance_bounds _ _ _ B C F) as (D1 & D2 & _).
  unfold raise_max.
  destruct (Qltb_spec (max (sThrottle g) + THROTTLE_RANGE_LIMIT p) y) as [Hr|Hr]; cbn.
  - split; intros H.
    + lra.
    + apply full_scale_after_raise. intros Eq. lra.
  - split; intros H.
    + apply clip_low.
      assert (Z0 : (y - min (sThrottle g)) * scale_factor (sThrottle g)
                   <= 0 * scale_factor (sThrottle g))
        by (apply Qmult_le_compat_r; lra).
      lra.
    + apply clip_high.
      assert (One : 1 <= (y - min (sThrottle g)) * scale_factor (sThrottle g)).
      { apply (span_times_scale (max (sThrottle g) - min (sThrottle g)));
          [lra | exact F | lra]. }
      lra.
Qed.

Lemma X8_witness :
  let p := default_params in
  0 <= THROTTLE_RANGE_LIMIT p
  /\ (THROTTLE_START_TIME p < startup_count (sThrottle idle_channel))%Z
  /\ calibrated p (sThrottle idle_channel)
  /\ clipped_cmd p idle_channel 2.2 = Some (clip ((2.2 - 0.85) * (1.0 / 1.35)))
  /\ clip ((2.2 - 0.85) * (1.0 / 1.35)) == 0.99.
Proof.
  intros p.
  assert (H1 : 0 <= THROTTLE_RANGE_LIMIT p) by (unfold Qle; simpl; lia).
  assert (H2 : (THROTTLE_START_TIME p < startup_count (sThrottle idle_channel))%Z)
    by (simpl; lia).
  assert (H3 : calibrated p (sThrottle idle_channel)).
  { intros _. cbn. repeat split; unfold Qle; simpl; lia. }
  assert (H4 : clipped_cmd p idle_channel 2.2
               = Some (clip ((2.2 - 0.85) * (1.0 / 1.35))))
    by (vm_compute; reflexivity).
  split; [exact H1|]. split; [exact H2|]. split; [exact H3|]. split; [exact H4|].
  apply (proj2 (X8_transfer_end_points p idle_channel 2.2 _ H1 H2 H3 H4)).
  unfold Qle; simpl; lia.
Defined.

(** X9. The transfer curve is monotone: for one calibrated channel in
    normal operation, a higher filtered input never gives a lower clipped
    command, whether or not it raises the learned maximum. *)
Theorem X9_transfer_monotone (p : Params) (g : Globals) (v1 v2 c1 c2 : Q) :
  0 <= THROTTLE_RANGE_LIMIT p ->
  (THROTTLE_START_TIME p < startup_count (sThrottle g))%Z ->
  calibrated p (sThrottle g) ->
  clipped_cmd p g v1 = Some c1 ->
  clipped_cmd p g v2 = Some c2 ->
  Y (filter_step p (Throttle_filt g) v1) <= Y (filter_step p (Throttle_filt g) v2) ->
  c1 <= c2.
Proof.
  intros HL Hc Hcal H1 H2 Hy.
  destruct (Hcal Hc) as (A & B & C & F).
  destruct (inverse_distance_bounds _ _ _ B C F) as (D1 & D2 & _).
  assert (P1 : throttle_path p g v1 = Normal) by (apply clipped_cmd_path; eauto).
  assert (P2 : throttle_path p g v2 = Normal) by (apply clipped_cmd_path; eauto).
  destruct (normal_after_startup p g v1 Hc P1) as (_ & E1 & _).
  destruct (normal_after_startup p g v2 Hc P2) as (_ & E2 & _).
  rewrite E1 in H1. rewrite E2 in H2.
  injection H1 as <-. injection H2 as <-.
  set (y1 := Y (filter_step p (Throttle_filt g) v1)) in *.
  set (y2 := Y (filter_step p (Throttle_filt g) v2)) in *.
  unfold raise_max at 3 4.
  destruct (Qltb_spec (max (sThrottle g) + THROTTLE_RANGE_LIMIT p) y2) as [R2|R2];
    cbn [min max scale_factor set_max set_scale_factor].
  - assert (Full : clip ((y2 - min (sThrottle g)) * (1.0 / (y2 - min (sThrottle g))))
                   == 0.99)
      by (apply full_scale_after_raise; intros Eq; lra).
    rewrite Full.
    pose proof (clip_range
                  ((y1 - min (raise_max p y1 (sThrottle g)))
                   * scale_factor (raise_max p y1 (sThrottle g)))) as R.
    unfold THROTTLE_OUTPUT_MAX in R. lra.
  - unfold raise_max.
    destruct (Qltb_spec (max (sThrottle g) + THROTTLE_RANGE_LIMIT p) y1) as [R1|R1];
      [lra|].
    apply clip_monotone. apply Qmult_le_compat_r; lra.
Qed.

Lemma X9_witness :
  let p := default_params in
  let c1 := clip ((1.5 - 0.85) * (1.0 / 1.35)) in
  let c2 := clip ((1.6 - 0.85) * (1.0 / 1.35)) in
  0 <= THROTTLE_RANGE_LIMIT p
  /\ (THROTTLE_START_TIME p < startup_count (sThrottle idle_channel))%Z
  /\ calibrated p (sThrottle idle_channel)
  /\ clipped_cmd p idle_channel 1.5 = Some c1
  /\ clipped_cmd p idle_channel 1.6 = Some c2
  /\ c1 <= c2.
Proof.
  intros p c1 c2.
  assert (H1 : 0 <= THROTTLE_RANGE_LIMIT p) by (unfold Qle; simpl; lia).
  assert (H2 : (THROTTLE_START_TIME p < startup_count (sThrottle idle_channel))%Z)
    by (simpl; lia).
  assert (H3 : calibrated p (sThrottle idle_channel)).
  { intros _. cbn. repeat split; unfold Qle; simpl; lia. }
  assert (H4 : clipped_cmd p idle_channel 1.5 = Some c1) by (vm_compute; reflexivity).
  assert (H5 : clipped_cmd p idle_channel 1.6 = Some c2) by (vm_compute; reflexivity).
  assert (H6 : Y (filter_step p (Throttle_filt idle_channel) 1.5)
               <= Y (filter_step p (Throttle_filt idle_channel) 1.6))
    by (unfold Qle; simpl; lia).
  split; [exact H1|]. split; [exact H2|]. split; [exact H3|].
  split; [exact H4|]. split; [exact H5|].
  exact (X9_transfer_monotone p idle_channel 1.5 1.6 c1 c2 H1 H2 H3 H4 H5 H6).
Defined.

End NormalOperation.

(** ** The ramp under a steady command *)

Section SteadyRamp.
Import Throttle ThrottleInvariants.

Lemma steady_step (p : Params) (g : Globals) (v c : Q) :
  state (sThrottle g) <> 0%Z -> THROTTLE_HYST_LOW p < c ->
  clipped_cmd p g v = Some c ->
  state (sThrottle (fst (throttle_process p g v))) <> 0%Z
  /\ snd (throttle_process p g v) = rate_limit p (prev_output g) c
  /\ prev_output (fst (throttle_process p g v)) = rate_limit p (prev_output g) c.
Proof.
  intros Hon Hlow Hc.
  destruct (gate_step p g v c Hc) as (Est & Eout & Eprev).
  rewrite gate_on_pass in Est, Eout by assumption. cbn [fst snd] in Est, Eout.
  rewrite Eprev, Eout, Est. auto.
Qed.

Lemma count_times_rate_nonneg (n : nat) (r : Q) :
  0 <= r -> 0 <= inject_Z (Z.of_nat n) * r.
Proof.
  intros Hr. apply Qmult_le_0_compat; [|exact Hr].
  change 0 with (inject_Z 0). rewrite <- Zle_Qle. lia.
Qed.

Lemma succ_times_rate (n : nat) (r : Q) :
  inject_Z (Z.of_nat (S n)) * r == inject_Z (Z.of_nat n) * r + r.
Proof.
  rewrite Nat2Z.inj_succ. unfold Z.succ. rewrite inject_Z_plus.
  change (inject_Z 1) with 1. ring.
Qed.

(** X19. The ramp under a steady command: with the latch on and every call
    reaching the gate with the same clipped command [c], above the lower
    threshold and not below the stored last output, the k-th command
    returned (counting from 1) is the last output plus k times
    [THROTTLE_SLEW_RATE] as long as that is below [c], and [c] itself from
    then on. *)
Theorem X19_ramp_under_steady_command (p : Params) (samples : list Q)
    (g : Globals) (c : Q) (k : nat) (out : Q) :
  0 <= THROTTLE_SLEW_RATE p ->
  state (sThrottle g) <> 0%Z ->
  THROTTLE_HYST_LOW p < c ->
  prev_output g <= c ->
  steady p g samples c ->
  nth_error (snd (run p g samples)) k = Some out ->
  let target := prev_output g + inject_Z (Z.of_nat (S k)) * THROTTLE_SLEW_RATE p in
  (target < c -> out == target) /\ (c <= target -> out == c).
Proof.
  intros Hs. revert g k.
  induction samples as [|v rest IH]; intros g k Hon Hlow Hle Hst Hnth; cbn in Hnth.
  - destruct k; discriminate.
  - cbn [steady] in Hst. destruct Hst as [Hc Hrest].
    destruct (steady_step p g v c Hon Hlow Hc) as (Hon1 & Eout & Eprev).
    destruct (throttle_process p g v) as [g1 o1]. cbn [fst snd] in *.
    specialize (IH g1). destruct (run p g1 rest) as [g2 outs]. cbn [fst snd] in *.
    assert (Hle1 : prev_output g1 <= c).
    { rewrite Eprev. unfold rate_limit.
      destruct (Qltb_spec (THROTTLE_SLEW_RATE p) (c - prev_output g)) as [Hd|Hd]; lra. }
    destruct k as [|k]; cbn [nth_error] in Hnth.
    + injection Hnth as <-. cbn zeta. rewrite Eout.
      pose proof (succ_times_rate 0 (THROTTLE_SLEW_RATE p)) as E1.
      change (inject_Z (Z.of_nat 0)) with 0 in E1.
      unfold rate_limit.
      destruct (Qltb_spec (THROTTLE_SLEW_RATE p) (c - prev_output g)) as [Hd|Hd];
        split; intros Ht; lra.
    + specialize (IH k Hon1 Hlow Hle1 Hrest Hnth). cbn zeta in IH |- *.
      destruct IH as [IHlt IHge].
      pose proof (succ_times_rate (S k) (THROTTLE_SLEW_RATE p)) as E1.
      pose proof (count_times_rate_nonneg (S k) (THROTTLE_SLEW_RATE p) Hs) as N1.
      set (ks := inject_Z (Z.of_nat (S k)) * THROTTLE_SLEW_RATE p) in *.
      set (kss := inject_Z (Z.of_nat (S (S k))) * THROTTLE_SLEW_RATE p) in *.
      rewrite Eprev in IHlt, IHge. unfold rate_limit in IHlt, IHge.
      destruct (Qltb_spec (THROTTLE_SLEW_RATE p) (c - prev_output g)) as [Hd|Hd];
        split; intros Ht.
      * rewrite IHlt by lra. lra.
      * apply IHge. lra.
      * lra.
      * apply IHge. lra.
Qed.

Lemma X19_witness :
  let p := default_params in
  let g := mkGlobals (mkBiquad 0 0 [])
             (mkAnalog 1 1001 0.85 2.20 (1.0 / 1.35)) 0.0 in
  let c := clip ((2.2 - 0.85) * (1.0 / 1.35)) in
  (0 <= THROTTLE_SLEW_RATE p
   /\ state (sThrottle g) <> 0%Z
   /\ THROTTLE_HYST_LOW p < c
   /\ prev_output g <= c
   /\ steady p g [2.2; 2.2; 2.2] c
   /\ nth_error (snd (run p g [2.2; 2.2; 2.2])) 2 = Some 0.0015000000000)
  /\ 0.0015000000000
     == prev_output g + inject_Z (Z.of_nat 3) * THROTTLE_SLEW_RATE p.
Proof.
  intros p g c.
  assert (H1 : 0 <= THROTTLE_SLEW_RATE p) by (unfold Qle; simpl; lia).
  assert (H2 : state (sThrottle g) <> 0%Z) by (vm_compute; discriminate).
  assert (H3 : THROTTLE_HYST_LOW p < c) by (vm_compute; reflexivity).
  assert (H4 : prev_output g <= c) by (vm_compute; discriminate).
  assert (H5 : steady p g [2.2; 2.2; 2.2] c).
  { cbn [steady]. repeat split; vm_compute; reflexivity. }
  assert (H6 : nth_error (snd (run p g [2.2; 2.2; 2.2])) 2 = Some 0.0015000000000)
    by (vm_compute; reflexivity).
  split; [repeat split; assumption|].
  apply (proj1 (X19_ramp_under_steady_command p [2.2; 2.2; 2.2] g c 2
                  0.0015000000000 H1 H2 H3 H4 H5 H6)).
  vm_compute. reflexivity.
Defined.

End SteadyRamp.

(** ** The pedal-assist channel over several calls *)

Section PasRuns.
Import PAS PASRun.

(** One call on channel 1 or 2, by the sampled level. *)
Lemma pas_step_by_level (p : Params) (io : Ports) (s : Throttle_PAS_Type)
    (thrnum : Z) :
  thrnum = 1%Z \/ thrnum = 2%Z ->
  fst (throttle_pas_process p io s thrnum)
  = let level := sampled_level p io thrnum in
    if negb (level =? last_reading s)%Z
    then if (level =? 1)%Z
         then mkPAS level 0
                ((inject_Z (time_counter s) / 1000.0) * PAS_FILTER p
                 + filtered_speed s * (1 - PAS_FILTER p))
                (scale_factor s)
         else set_last_reading level s
    else set_time_counter (time_counter s + 1) s.
Proof.
  intros Hn. unfold throttle_pas_process, sampled_level.
  destruct Hn as [-> | ->]; cbn [Z.eqb Pos.eqb];
    destruct (negb _); [destruct (_ =? 1)%Z | | destruct (_ =? 1)%Z | ];
    reflexivity.
Qed.

Lemma read_pin_one (idr pin : Z) : read_pin idr pin = 1%Z -> pin = 0%Z.
Proof.
  unfold read_pin. intros H.
  destruct (Z.eq_dec pin 0) as [E|E]; [exact E | exfalso].
  apply (f_equal (fun z => Z.testbit z 0)) in H.
  rewrite !Z.land_spec, Z.shiftl_spec in H by lia.
  cbn [Z.testbit Z.sub Z.opp] in H.
  replace (Z.testbit 1 (0 - pin)) with false in H.
  - rewrite andb_false_r in H. cbn in H. discriminate H.
  - symmetry. destruct (Z.lt_ge_cases (0 - pin) 0) as [Hn|Hp].
    + apply Z.testbit_neg_r. exact Hn.
    + apply Z.bits_above_log2; [lia | cbn; lia].
Qed.

Lemma pas_step_keeps_speed (p : Params) (io : Ports) (s : Throttle_PAS_Type)
    (thrnum : Z) :
  (thrnum = 1%Z /\ ADC_THR1_PIN p <> 0%Z)
  \/ (thrnum = 2%Z /\ ADC_THR2_PIN p <> 0%Z) ->
  filtered_speed (fst (throttle_pas_process p io s thrnum)) = filtered_speed s.
Proof.
  intros H.
  assert (Hn : thrnum = 1%Z \/ thrnum = 2%Z) by (destruct H as [[? _]|[? _]]; auto).
  assert (Hl : sampled_level p io thrnum <> 1%Z).
  { unfold sampled_level. destruct H as [[-> Hp]|[-> Hp]]; cbn [Z.eqb Pos.eqb];
      intros E; apply read_pin_one in E; contradiction. }
  rewrite (pas_step_by_level p io s thrnum Hn). cbn zeta.
  destruct (negb _); [|reflexivity].
  destruct (Z.eqb_spec (sampled_level p io thrnum) 1); [contradiction | reflexivity].
Qed.

(** X10. The rising-edge test compares the masked, 8-bit pin sample with 1,
    which only a pin on bit 0 can produce: for a channel whose pin number is
    not 0 no sequence of calls ever changes the filtered speed. *)
Theorem X10_pas_speed_frozen_off_pin_zero (p : Params) (thrnum : Z)
    (ios : list Ports) (s : Throttle_PAS_Type) :
  (thrnum = 1%Z /\ ADC_THR1_PIN p <> 0%Z)
  \/ (thrnum = 2%Z /\ ADC_THR2_PIN p <> 0%Z) ->
  filtered_speed (pas_run p thrnum s ios) = filtered_speed s.
Proof.
  intros H. revert s. induction ios as [|io rest IH]; intros s; cbn.
  - reflexivity.
  - rewrite IH. apply pas_step_keeps_speed. exact H.
Qed.

Lemma X10_witness :
  let p := default_params in
  let s := mkPAS 0 10 0.25 1 in
  ((1 = 1)%Z /\ ADC_THR1_PIN p <> 0%Z)
  /\ filtered_speed (pas_run p 1 s [mkPorts 32 0; mkPorts 0 0; mkPorts 32 0])
     = filtered_speed s.
Proof.
  intros p s.
  assert (H : (1 = 1)%Z /\ ADC_THR1_PIN p <> 0%Z)
    by (split; [reflexivity | vm_compute; discriminate]).
  split; [exact H|].
  exact (X10_pas_speed_frozen_off_pin_zero p 1
           [mkPorts 32 0; mkPorts 0 0; mkPorts 32 0] s (or_introl H)).
Defined.

Lemma pas_run_app (p : Params) (thrnum : Z) (a b : list Ports) :
  forall s, pas_run p thrnum s (a ++ b) = pas_run p thrnum (pas_run p thrnum s a) b.
Proof. induction a as [|io a IH]; intros s; cbn; [reflexivity | apply IH]. Qed.

(** Calls that all sample the stored level only count. *)
Lemma pas_hold (p : Params) (thrnum : Z) (ios : list Ports) :
  thrnum = 1%Z \/ thrnum = 2%Z ->
  forall s,
    Forall (fun io => sampled_level p io thrnum = last_reading s) ios ->
    pas_run p thrnum s ios
    = set_time_counter (time_counter s + Z.of_nat (length ios)) s.
Proof.
  intros Hn. induction ios as [|io rest IH]; intros s Hall.
  - cbn. rewrite Z.add_0_r. destruct s; reflexivity.
  - inversion Hall as [|x l Hio Hrest]; subst.
    cbn [pas_run]. rewrite (pas_step_by_level p io s thrnum Hn). cbn zeta.
    rewrite Hio, Z.eqb_refl. cbn [negb].
    rewrite IH by exact Hrest.
    unfold set_time_counter. cbn [last_reading time_counter filtered_speed scale_factor length].
    f_equal. lia.
Qed.

(** X11. One pedal pulse: after a rising edge (last reading 1, counter 0),
    [k] calls that sample 1, then [m >= 1] calls that sample 0, leave the
    counter at [k + m - 1] (the call that sees the falling edge neither
    resets nor increments it) and the filtered speed untouched; the call
    that sees the next rising edge then filters [(k + m - 1) / 1000] with
    weight [PAS_FILTER] and resets the counter.  The counter therefore
    measures two periods less than the [k + m + 1] calls from one rising
    edge to the next. *)
Theorem X11_pas_pulse_measure (p : Params) (thrnum : Z) (s : Throttle_PAS_Type)
    (highs lows : list Ports) (rise : Ports) :
  thrnum = 1%Z \/ thrnum = 2%Z ->
  last_reading s = 1%Z -> time_counter s = 0%Z ->
  Forall (fun io => sampled_level p io thrnum = 1%Z) highs ->
  lows <> [] ->
  Forall (fun io => sampled_level p io thrnum = 0%Z) lows ->
  sampled_level p rise thrnum = 1%Z ->
  let n := (Z.of_nat (length highs) + Z.of_nat (length lows) - 1)%Z in
  let s1 := pas_run p thrnum s (highs ++ lows) in
  let s2 := fst (throttle_pas_process p rise s1 thrnum) in
  time_counter s1 = n
  /\ last_reading s1 = 0%Z
  /\ filtered_speed s1 = filtered_speed s
  /\ time_counter s2 = 0%Z
  /\ last_reading s2 = 1%Z
  /\ filtered_speed s2
     = (inject_Z n / 1000.0) * PAS_FILTER p + filtered_speed s * (1 - PAS_FILTER p).
Proof.
  intros Hn Hl Ht Hhigh Hne Hlow Hrise n s1 s2.
  assert (E1 : s1 = mkPAS 0 n (filtered_speed s) (scale_factor s)).
  { subst s1. rewrite pas_run_app.
    rewrite (pas_hold p thrnum highs Hn s) by (rewrite Hl; exact Hhigh).
    destruct lows as [|io rest]; [contradiction|].
    inversion Hlow as [|x l Hio Hrest]; subst x l.
    cbn [pas_run]. rewrite (pas_step_by_level p io _ thrnum Hn). cbn zeta.
    unfold set_time_counter at 1 2 3.
    cbn [last_reading time_counter filtered_speed scale_factor].
    rewrite Hio, Hl. cbn [Z.eqb negb].
    rewrite (pas_hold p thrnum rest Hn) by exact Hrest.
    unfold set_time_counter, set_last_reading.
    cbn [last_reading time_counter filtered_speed scale_factor length].
    subst n. rewrite Ht. f_equal. cbn [length]. lia. }
  assert (E2 : s2 = mkPAS 1 0
                      ((inject_Z n / 1000.0) * PAS_FILTER p
                       + filtered_speed s * (1 - PAS_FILTER p))
                      (scale_factor s)).
  { subst s2. rewrite (pas_step_by_level p rise s1 thrnum Hn). cbn zeta.
    rewrite Hrise, E1. reflexivity. }
  rewrite E1, E2. repeat split.
Qed.

Lemma X11_witness :
  let p := default_params in
  let s := mkPAS 1 0 0 1 in
  let highs := [mkPorts 0 1; mkPorts 0 1] in
  let lows := [mkPorts 0 0; mkPorts 0 0; mkPorts 0 0] in
  let s1 := pas_run p 2 s (highs ++ lows) in
  ((2 = 1)%Z \/ (2 = 2)%Z)
  /\ (last_reading s = 1%Z /\ time_counter s = 0%Z)
  /\ Forall (fun io => sampled_level p io 2 = 1%Z) highs
  /\ lows <> []
  /\ Forall (fun io => sampled_level p io 2 = 0%Z) lows
  /\ sampled_level p (mkPorts 0 1) 2 = 1%Z
  /\ time_counter s1 = 4%Z.
Proof.
  intros p s highs lows s1.
  assert (H0 : (2 = 1)%Z \/ (2 = 2)%Z) by (right; reflexivity).
  assert (H1 : last_reading s = 1%Z) by reflexivity.
  assert (H2 : time_counter s = 0%Z) by reflexivity.
  assert (H3 : Forall (fun io => sampled_level p io 2 = 1%Z) highs)
    by (repeat constructor).
  assert (H4 : lows <> []) by discriminate.
  assert (H5 : Forall (fun io => sampled_level p io 2 = 0%Z) lows)
    by (repeat constructor).
  assert (H6 : sampled_level p (mkPorts 0 1) 2 = 1%Z) by reflexivity.
  split; [exact H0|]. split; [split; [exact H1 | exact H2]|].
  split; [exact H3|]. split; [exact H4|]. split; [exact H5|]. split; [exact H6|].
  exact (proj1 (X11_pas_pulse_measure p 2 s highs lows (mkPorts 0 1)
                  H0 H1 H2 H3 H4 H5 H6)).
Defined.

End PasRuns.

(** ** Runs of the two interrupts *)

Section InterruptRuns.
Import Main MainRuns.

(** The slow interrupt, field by field. *)
Lemma app_timer_effect (W : Type) (c : Collaborators W) (m : Machine W) :
  let t := ((led_timer m + 1) mod 65536)%Z in
  exec (MAIN_AppTimerISR c) m
  = mkMachine (if (1000 <=? t)%Z then 0%Z else t) (DBG_Flags m)
      (DBG_RampAngle m) (DBG_RampIncrement m) (Timestamp m)
      (mkControls (THROTTLE_GetCommand c
                     (THROTTLE_Process c (ADC_RegSeqComplete c (world m)))))
      (Mobv m) (Mpwm m) (Mfoc m) (Mpid_Id m) (Mpid_Iq m)
      (THROTTLE_Process c (ADC_RegSeqComplete c (world m)))
  /\ events (MAIN_AppTimerISR c) m
     = (if (t =? 500)%Z then [GPIO_Low_GLED] else [])
       ++ (if (1000 <=? t)%Z then [GPIO_High_GLED] else [])
       ++ [PWM_BDTR_MOE (negb (Z.land (DBG_Flags m) DBG_FLAG_PWM_ENABLE =? 0)%Z)].
Proof.
  intros t.
  unfold exec, events, MAIN_AppTimerISR, bind, call, modify, get, emit, when, ret.
  cbn -[Z.modulo Z.eqb Z.leb Z.land]. fold t.
  destruct (t =? 500)%Z; destruct (1000 <=? t)%Z;
    cbn -[Z.modulo Z.eqb Z.leb Z.land]; split; reflexivity.
Qed.

Lemma periods_succ (W : Type) (isr : ISR W unit) (n : nat) (m : Machine W) :
  fst (periods isr (S n) m) = fst (periods isr n (exec isr m)).
Proof.
  cbn. unfold exec. destruct (isr m) as [[u m1] e1]. cbn.
  destruct (periods isr n m1). reflexivity.
Qed.

Lemma led_timer_step (W : Type) (c : Collaborators W) (m : Machine W) :
  (0 <= led_timer m < 1000)%Z ->
  led_timer (exec (MAIN_AppTimerISR c) m) = ((led_timer m + 1) mod 1000)%Z
  /\ filter is_LED_write (events (MAIN_AppTimerISR c) m)
     = (if (led_timer m =? 499)%Z then [GPIO_Low_GLED]
        else if (led_timer m =? 999)%Z then [GPIO_High_GLED] else []).
Proof.
  intros H. destruct (app_timer_effect W c m) as [E1 E2]. rewrite E1, E2.
  cbn [led_timer]. rewrite (Z.mod_small (led_timer m + 1) 65536) by lia.
  destruct (Z.eqb_spec (led_timer m + 1) 500);
    destruct (Z.leb_spec 1000 (led_timer m + 1));
    destruct (Z.eqb_spec (led_timer m) 499);
    destruct (Z.eqb_spec (led_timer m) 999); try lia; cbn.
  - split; [rewrite Z.mod_small by lia|]; reflexivity.
  - split; [|reflexivity].
    replace (led_timer m + 1)%Z with 1000%Z by lia. reflexivity.
  - split; [rewrite Z.mod_small by lia|]; reflexivity.
Qed.

(** X12. The status LED runs on a period of 1000 slow periods: with the
    counter in [0, 1000), after [n] runs of [MAIN_AppTimerISR] it is the
    initial value plus [n] modulo 1000, and the next run writes the LED low
    exactly when it is 499, high exactly when it is 999, and not at all
    otherwise. *)
Theorem X12_led_timer_period (W : Type) (c : Collaborators W) (n : nat)
    (m : Machine W) :
  (0 <= led_timer m < 1000)%Z ->
  let mn := fst (periods (MAIN_AppTimerISR c) n m) in
  led_timer mn = ((led_timer m + Z.of_nat n) mod 1000)%Z
  /\ filter is_LED_write (events (MAIN_AppTimerISR c) mn)
     = (if (led_timer mn =? 499)%Z then [GPIO_Low_GLED]
        else if (led_timer mn =? 999)%Z then [GPIO_High_GLED] else []).
Proof.
  intros H mn.
  assert (Hn : led_timer mn = ((led_timer m + Z.of_nat n) mod 1000)%Z).
  { subst mn. revert m H. induction n as [|n IH]; intros m H.
    - cbn [periods fst Z.of_nat]. rewrite Z.add_0_r, Z.mod_small by lia. reflexivity.
    - rewrite periods_succ.
      destruct (led_timer_step W c m H) as [Hs _].
      rewrite IH by (rewrite Hs; apply Z.mod_pos_bound; lia).
      rewrite Hs, Zplus_mod_idemp_l. f_equal. lia. }
  split; [exact Hn|].
  apply led_timer_step. rewrite Hn. apply Z.mod_pos_bound. lia.
Qed.

Lemma X12_witness :
  let mn := fst (periods (MAIN_AppTimerISR Doubles.collaborators) 499 Doubles.at_rest) in
  (0 <= led_timer Doubles.at_rest < 1000)%Z
  /\ led_timer mn = 499%Z
  /\ filter is_LED_write (events (MAIN_AppTimerISR Doubles.collaborators) mn)
     = [GPIO_Low_GLED].
Proof.
  intros mn.
  assert (H : (0 <= led_timer Doubles.at_rest < 1000)%Z) by (simpl; lia).
  pose proof (X12_led_timer_period Doubles.World Doubles.collaborators 499
                Doubles.at_rest H) as [A B].
  split; [exact H|]. split; [exact A|].
  fold mn in A, B. rewrite A in B. exact B.
Defined.

Lemma land_lor_bit0 (f : Z) : Z.land (Z.lor f 1) 1 = 1%Z.
Proof.
  apply Z.bits_inj'. intros n Hn.
  rewrite Z.land_spec, Z.lor_spec.
  destruct (Z.eq_dec n 0) as [->|Hne]; cbn.
  - rewrite orb_true_r. reflexivity.
  - replace (Z.testbit 1 n) with false; [apply andb_false_r|].
    symmetry. apply Z.bits_above_log2; [lia | cbn; lia].
Qed.

Lemma land_not32_bit0 (f : Z) : Z.land (Z.land f (not32 1)) 1 = 0%Z.
Proof.
  apply Z.bits_inj'. intros n Hn.
  rewrite !Z.land_spec, Z.bits_0. unfold not32. rewrite Z.lxor_spec.
  destruct (Z.eq_dec n 0) as [->|Hne]; cbn.
  - rewrite andb_false_r. reflexivity.
  - replace (Z.testbit 1 n) with false; [apply andb_false_r|].
    symmetry. apply Z.bits_above_log2; [lia | cbn; lia].
Qed.

(** X13. The debug switches and the output enable: the slow interrupt that
    follows [MAIN_EnableDebugPWM] sets the main-output-enable bit, the one
    that follows [MAIN_DisableDebugPWM] clears it, whatever the flags were
    before; both switches return [RETVAL_OK] and leave the other 31 flag
    bits as they were. *)
Theorem X13_debug_pwm_switch (W : Type) (c : Collaborators W) (m : Machine W) :
  let on := exec MAIN_EnableDebugPWM m in
  let off := exec MAIN_DisableDebugPWM m in
  moe_writes (events (MAIN_AppTimerISR c) on) = [true]
  /\ moe_writes (events (MAIN_AppTimerISR c) off) = [false]
  /\ fst (fst (MAIN_EnableDebugPWM m)) = RETVAL_OK
  /\ fst (fst (MAIN_DisableDebugPWM m)) = RETVAL_OK
  /\ Z.land (DBG_Flags on) (not32 1) = Z.land (DBG_Flags m) (not32 1)
  /\ Z.land (DBG_Flags off) (not32 1) = Z.land (DBG_Flags m) (not32 1).
Proof.
  intros on off.
  assert (Hmoe : forall m0 : Machine W,
            moe_writes (events (MAIN_AppTimerISR c) m0)
            = [negb (Z.land (DBG_Flags m0) DBG_FLAG_PWM_ENABLE =? 0)%Z]).
  { intros m0. destruct (app_timer_effect W c m0) as [_ E]. rewrite E.
    destruct (_ =? 500)%Z; destruct (1000 <=? _)%Z; reflexivity. }
  assert (Eon : DBG_Flags on = Z.lor (DBG_Flags m) 1) by reflexivity.
  assert (Eoff : DBG_Flags off = Z.land (DBG_Flags m) (not32 1)) by reflexivity.
  rewrite !Hmoe, Eon, Eoff. unfold DBG_FLAG_PWM_ENABLE.
  rewrite land_lor_bit0, land_not32_bit0.
  split; [reflexivity|]. split; [reflexivity|].
  split; [reflexivity|]. split; [reflexivity|]. split.
  - apply Z.bits_inj'. intros n Hn.
    rewrite !Z.land_spec, Z.lor_spec. unfold not32. rewrite Z.lxor_spec.
    destruct (Z.eq_dec n 0) as [->|Hne]; cbn.
    + rewrite !andb_false_r. reflexivity.
    + replace (Z.testbit 1 n) with false; [rewrite orb_false_r; reflexivity|].
      symmetry. apply Z.bits_above_log2; [lia | cbn; lia].
  - rewrite <- Z.land_assoc, Z.land_diag. reflexivity.
Qed.

(** The fast interrupt leaves the published command, the flags and the PID
    regulators alone. *)
Lemma motor_isr_frame (W : Type) (c : Collaborators W) (m : Machine W) :
  Mctrl (exec (MAIN_MotorISR c) m) = Mctrl m
  /\ Mpid_Id (exec (MAIN_MotorISR c) m) = Mpid_Id m
  /\ Mpid_Iq (exec (MAIN_MotorISR c) m) = Mpid_Iq m.
Proof.
  unfold exec, MAIN_MotorISR, bind, call, modify, get, emit.
  cbn -[to_uint16 Qmult Qminus Z.modulo Z.shiftl Z.add].
  destruct (CORDIC_CalcSinCos c _) as [sn cs].
  cbn -[to_uint16 Qmult Qminus Z.modulo Z.shiftl Z.add].
  destruct (FOC_Ipark c _ _ sn cs) as [al be].
  cbn -[to_uint16 Qmult Qminus Z.modulo Z.shiftl Z.add].
  destruct (FOC_SVM c al be) as [[ta tb] tc].
  cbn -[to_uint16 Qmult Qminus Z.modulo Z.shiftl Z.add].
  repeat split.
Qed.

Lemma schedule_app (W : Type) (c : Collaborators W) (a b : list Context) :
  forall m : Machine W, schedule c (a ++ b) m = schedule c b (schedule c a m).
Proof.
  induction a as [|x a IH]; intros m; cbn; [reflexivity|].
  destruct x; apply IH.
Qed.

Lemma fast_periods_keep_command (W : Type) (c : Collaborators W) (n : nat) :
  forall m : Machine W, Mctrl (schedule c (repeat Fast n) m) = Mctrl m.
Proof.
  induction n as [|n IH]; intros m; cbn [repeat schedule]; [reflexivity|].
  rewrite IH. apply motor_isr_frame.
Qed.

Lemma schedule_keeps_pid (W : Type) (c : Collaborators W) (sched : list Context) :
  forall m : Machine W,
    Mpid_Id (schedule c sched m) = Mpid_Id m
    /\ Mpid_Iq (schedule c sched m) = Mpid_Iq m.
Proof.
  induction sched as [|x rest IH]; intros m; cbn [schedule]; [split; reflexivity|].
  destruct x.
  - destruct (IH (exec (MAIN_AppTimerISR c) m)) as [A B].
    rewrite A, B. destruct (app_timer_effect W c m) as [E _].
    rewrite E. split; reflexivity.
  - destruct (IH (exec (MAIN_MotorISR c) m)) as [A B].
    rewrite A, B. destruct (motor_isr_frame W c m) as (_ & P & Q0).
    split; assumption.
Qed.

(** X14. Across any interleaving of the two interrupts (each run to
    completion), the throttle command the fast context reads is the one the
    latest slow period obtained from the throttle conditioner, however many
    fast periods have run since; and no interleaving ever writes the state
    of the two PID regulators. *)
Theorem X14_published_command_persists (W : Type) (c : Collaborators W)
    (before : list Context) (n : nat) (m : Machine W) :
  let published := schedule c (before ++ [Slow]) m in
  let later := schedule c (before ++ Slow :: repeat Fast n) m in
  Mctrl published = mkControls (THROTTLE_GetCommand c (world published))
  /\ Mctrl later = Mctrl published
  /\ (forall sched, Mpid_Id (schedule c sched m) = Mpid_Id m
                    /\ Mpid_Iq (schedule c sched m) = Mpid_Iq m).
Proof.
  intros published later. split; [|split].
  - subst published. rewrite schedule_app. cbn [schedule].
    destruct (app_timer_effect W c (schedule c before m)) as [E _].
    rewrite E. reflexivity.
  - subst published later.
    change (Slow :: repeat Fast n) with ([Slow] ++ repeat Fast n).
    rewrite app_assoc, (schedule_app W c (before ++ [Slow])).
    apply fast_periods_keep_command.
  - intros sched. apply schedule_keeps_pid.
Qed.





End InterruptRuns.

(** ** Bootloader hand-over, application timer, input switching *)

Section HardwareSetup.
Import MainRuns.

Lemma land_not32_self (m : Z) :
  (0 <= m < 4294967296)%Z -> Z.land (not32 m) m = 0%Z.
Proof.
  intros Hm. apply Z.bits_inj'. intros n Hn.
  rewrite Z.land_spec, Z.bits_0. unfold not32. rewrite Z.lxor_spec.
  destruct (Z.testbit m n) eqn:Em; [|apply andb_false_r].
  assert (Hlt : (n < 32)%Z).
  { destruct (Z.lt_ge_cases n 32) as [L|G]; [exact L | exfalso].
    assert (Z.testbit m n = false); [|congruence].
    destruct (Z.eq_dec m 0) as [->|Hz]; [apply Z.bits_0|].
    apply Z.bits_above_log2; [lia|].
    apply Z.log2_lt_pow2; [lia|].
    apply Z.lt_le_trans with (2 ^ 32)%Z; [cbn; lia|].
    apply Z.pow_le_mono_r; lia. }
  assert (Eo : Z.testbit 4294967295 n = true).
  { change 4294967295%Z with (Z.ones 32). apply Z.ones_spec_low. lia. }
  rewrite Eo. reflexivity.
Qed.

(** X16. A bootloader request is served once.  [MAIN_GoToBootloader]
    stores the flag in the backup register and resets; when that register
    survives the reset, [MAIN_CheckBootloader] hands over to the bootloader
    with the backup register cleared and the memory-mode field set to
    [MEM_MODE_0], and at the following start-up, with the backup register
    still as it left it, it returns without touching anything. *)
Theorem X16_bootloader_request_served_once
    (k : Boot.Masks) (r after_reset : Boot.Registers) :
  Boot.TAMP_BKP0R after_reset
  = Boot.TAMP_BKP0R (fst (Boot.MAIN_GoToBootloader k r)) ->
  (0 <= Boot.SYSCFG_MEMRMP_MEM_MODE k < 4294967296)%Z ->
  Z.land (Boot.SYSCFG_MEMRMP_MEM_MODE_0 k) (Boot.SYSCFG_MEMRMP_MEM_MODE k)
  = Boot.SYSCFG_MEMRMP_MEM_MODE_0 k ->
  let served := Boot.MAIN_CheckBootloader k after_reset in
  snd (Boot.MAIN_GoToBootloader k r) = Boot.System_Reset
  /\ snd served = Boot.Bootloader_Entered
  /\ Boot.TAMP_BKP0R (fst served) = 0%Z
  /\ Z.land (Boot.SYSCFG_MEMRMP (fst served)) (Boot.SYSCFG_MEMRMP_MEM_MODE k)
     = Boot.SYSCFG_MEMRMP_MEM_MODE_0 k
  /\ (forall next,
        Boot.TAMP_BKP0R next = Boot.TAMP_BKP0R (fst served) ->
        Boot.MAIN_CheckBootloader k next = (next, Boot.Returns)).
Proof.
  intros Hkeep Hm Hsub served.
  assert (Hflag : Boot.TAMP_BKP0R after_reset = Boot.BOOTLOADER_RESET_FLAG)
    by exact Hkeep.
  assert (E : served
              = (Boot.mkRegisters 0
                   (Z.lor (Boot.RCC_APB1ENR1 after_reset) (Boot.RCC_APB1ENR1_PWREN k))
                   (Z.lor (Boot.PWR_CR1 after_reset) (Boot.PWR_CR1_DBP k))
                   (Z.lor (Z.land (Boot.SYSCFG_MEMRMP after_reset)
                             (not32 (Boot.SYSCFG_MEMRMP_MEM_MODE k)))
                          (Boot.SYSCFG_MEMRMP_MEM_MODE_0 k)),
                 Boot.Bootloader_Entered)).
  { subst served. unfold Boot.MAIN_CheckBootloader. rewrite Hflag. reflexivity. }
  rewrite E. cbn [fst snd Boot.TAMP_BKP0R Boot.SYSCFG_MEMRMP].
  split; [reflexivity|]. split; [reflexivity|]. split; [reflexivity|]. split.
  - rewrite Z.land_lor_distr_l, <- Z.land_assoc, land_not32_self by exact Hm.
    rewrite Z.land_0_r, Z.lor_0_l. exact Hsub.
  - intros next Hnext. unfold Boot.MAIN_CheckBootloader. rewrite Hnext.
    reflexivity.
Qed.

Lemma X16_witness :
  let k := Boot.g4_masks in
  let r := Boot.mkRegisters 0 0 0 0 in
  let after_reset := Boot.mkRegisters Boot.BOOTLOADER_RESET_FLAG 0 0 0 in
  Boot.TAMP_BKP0R after_reset
  = Boot.TAMP_BKP0R (fst (Boot.MAIN_GoToBootloader k r))
  /\ (0 <= Boot.SYSCFG_MEMRMP_MEM_MODE k < 4294967296)%Z
  /\ Z.land (Boot.SYSCFG_MEMRMP_MEM_MODE_0 k) (Boot.SYSCFG_MEMRMP_MEM_MODE k)
     = Boot.SYSCFG_MEMRMP_MEM_MODE_0 k
  /\ snd (Boot.MAIN_CheckBootloader k after_reset) = Boot.Bootloader_Entered
  /\ Boot.TAMP_BKP0R (fst (Boot.MAIN_CheckBootloader k after_reset)) = 0%Z.
Proof.
  intros k r after_reset.
  assert (H1 : Boot.TAMP_BKP0R after_reset
               = Boot.TAMP_BKP0R (fst (Boot.MAIN_GoToBootloader k r)))
    by reflexivity.
  assert (H2 : (0 <= Boot.SYSCFG_MEMRMP_MEM_MODE k < 4294967296)%Z)
    by (simpl; lia).
  assert (H3 : Z.land (Boot.SYSCFG_MEMRMP_MEM_MODE_0 k)
                 (Boot.SYSCFG_MEMRMP_MEM_MODE k)
               = Boot.SYSCFG_MEMRMP_MEM_MODE_0 k) by reflexivity.
  pose proof (X16_bootloader_request_served_once k r after_reset H1 H2 H3)
    as (_ & A & B & _).
  split; [exact H1|]. split; [exact H2|]. split; [exact H3|].
  split; [exact A | exact B].
Defined.

(** X17. The application timer fires at exactly [APP_TIM_RATE]: when the
    timer clock is a whole number of MHz below 2^32 Hz and the rate divides
    1 MHz, the prescaler and reload values written by [MAIN_StartAppTimer]
    satisfy [(PSC + 1) * (ARR + 1) * APP_TIM_RATE = APP_CLK]; the prescaler
    fits 16 bits, and the reload value does as soon as the rate is at least
    16 Hz. *)
Theorem X17_app_timer_rate (k : AppTimer.Config) (h : AppTimer.Hardware) :
  (0 < AppTimer.APP_CLK k < 4294967296)%Z ->
  (AppTimer.APP_CLK k mod 1000000 = 0)%Z ->
  (0 < AppTimer.APP_TIM_RATE k)%Z ->
  (1000000 mod AppTimer.APP_TIM_RATE k = 0)%Z ->
  let h' := AppTimer.MAIN_StartAppTimer k h in
  ((AppTimer.APP_TIM_PSC h' + 1) * (AppTimer.APP_TIM_ARR h' + 1)
     * AppTimer.APP_TIM_RATE k = AppTimer.APP_CLK k)%Z
  /\ (0 <= AppTimer.APP_TIM_PSC h' < 65536)%Z
  /\ (16 <= AppTimer.APP_TIM_RATE k -> 0 <= AppTimer.APP_TIM_ARR h' < 65536)%Z
  /\ AppTimer.APP_IRQ_enabled h' = true.
Proof.
  intros Hclk Hmhz Hrate Hdiv h'.
  assert (Hle : (AppTimer.APP_TIM_RATE k <= 1000000)%Z).
  { apply Z.mod_divide in Hdiv; [|lia].
    apply Z.divide_pos_le in Hdiv; lia. }
  assert (Eclk : (AppTimer.APP_CLK k = 1000000 * (AppTimer.APP_CLK k / 1000000))%Z)
    by (apply Z.div_exact; [lia | exact Hmhz]).
  assert (Erate : (1000000 = AppTimer.APP_TIM_RATE k
                             * (1000000 / AppTimer.APP_TIM_RATE k))%Z)
    by (apply Z.div_exact; [lia | exact Hdiv]).
  set (q := (AppTimer.APP_CLK k / 1000000)%Z) in *.
  set (d := (1000000 / AppTimer.APP_TIM_RATE k)%Z) in *.
  assert (Hq : (1 <= q <= 4294)%Z) by lia.
  assert (Hd : (1 <= d <= 1000000)%Z) by nia.
  assert (Ep : AppTimer.APP_TIM_PSC h' = (q - 1)%Z).
  { subst h'. cbn [AppTimer.MAIN_StartAppTimer AppTimer.APP_TIM_PSC].
    unfold AppTimer.u32. rewrite (Z.mod_small (AppTimer.APP_CLK k)) by lia.
    fold q. apply Z.mod_small. lia. }
  assert (Ea : AppTimer.APP_TIM_ARR h' = (d - 1)%Z).
  { subst h'. cbn [AppTimer.MAIN_StartAppTimer AppTimer.APP_TIM_ARR].
    unfold AppTimer.u32. rewrite (Z.mod_small (AppTimer.APP_TIM_RATE k)) by lia.
    fold d. apply Z.mod_small. lia. }
  rewrite Ep, Ea. split; [|split; [|split]].
  - replace (q - 1 + 1)%Z with q by lia. replace (d - 1 + 1)%Z with d by lia.
    replace (q * d * AppTimer.APP_TIM_RATE k)%Z
      with (q * (AppTimer.APP_TIM_RATE k * d))%Z by ring.
    rewrite <- Erate. lia.
  - lia.
  - intros H16. nia.
  - reflexivity.
Qed.

Lemma X17_witness :
  let k := AppTimer.g4_config in
  let h' := AppTimer.MAIN_StartAppTimer k AppTimer.reset_hardware in
  ((0 < AppTimer.APP_CLK k < 4294967296)%Z
   /\ (AppTimer.APP_CLK k mod 1000000 = 0)%Z
   /\ (0 < AppTimer.APP_TIM_RATE k)%Z
   /\ (1000000 mod AppTimer.APP_TIM_RATE k = 0)%Z)
  /\ ((AppTimer.APP_TIM_PSC h' + 1) * (AppTimer.APP_TIM_ARR h' + 1)
        * AppTimer.APP_TIM_RATE k = AppTimer.APP_CLK k)%Z.
Proof.
  intros k h'.
  assert (H1 : (0 < AppTimer.APP_CLK k < 4294967296)%Z) by (simpl; lia).
  assert (H2 : (AppTimer.APP_CLK k mod 1000000 = 0)%Z) by reflexivity.
  assert (H3 : (0 < AppTimer.APP_TIM_RATE k)%Z) by (simpl; lia).
  assert (H4 : (1000000 mod AppTimer.APP_TIM_RATE k = 0)%Z) by reflexivity.
  split; [repeat split; assumption|].
  exact (proj1 (X17_app_timer_rate k AppTimer.reset_hardware H1 H2 H3 H4)).
Defined.

Lemma land_lor_mask (x m : Z) : Z.land (Z.lor x m) m = m.
Proof.
  rewrite Z.land_lor_distr_l, Z.land_diag.
  apply Z.bits_inj'. intros n Hn.
  rewrite Z.lor_spec, Z.land_spec.
  destruct (Z.testbit m n); [apply orb_true_r | rewrite andb_false_r; reflexivity].
Qed.

Lemma land_land_not32 (x m : Z) :
  (0 <= m < 4294967296)%Z -> Z.land (Z.land x (not32 m)) m = 0%Z.
Proof.
  intros Hm. rewrite <- Z.land_assoc, land_not32_self by exact Hm.
  apply Z.land_0_r.
Qed.

Lemma lor_outside_mask (x m : Z) :
  (0 <= m < 4294967296)%Z ->
  Z.land (Z.lor x m) (not32 m) = Z.land x (not32 m).
Proof.
  intros Hm. rewrite Z.land_lor_distr_l.
  rewrite (Z.land_comm m), land_not32_self by exact Hm. apply Z.lor_0_r.
Qed.

(** X18. Switching a throttle input (channel 1 or 2): analog masks the
    channel's pin-change interrupt line, pedal-assist unmasks it and starts
    the channel's timer with the configured prescaler and a reload value of
    0xFFFF; either way the other lines of the interrupt mask are left as
    they were, and the mode chosen last decides, whatever came before. *)
Theorem X18_switch_masks_the_line (k : Switch.Macros) (h : Switch.Hardware)
    (thrnum : Z) :
  thrnum = 1%Z \/ thrnum = 2%Z ->
  Switch.THROTTLE_TYPE_PAS k <> Switch.THROTTLE_TYPE_ANALOG k ->
  (0 <= Switch.line_mask k thrnum < 4294967296)%Z ->
  let m := Switch.line_mask k thrnum in
  let analog := fst (Switch.throttle_switch_type k h thrnum
                       (Switch.THROTTLE_TYPE_ANALOG k)) in
  let pas := fst (Switch.throttle_switch_type k h thrnum
                    (Switch.THROTTLE_TYPE_PAS k)) in
  let back := fst (Switch.throttle_switch_type k pas thrnum
                     (Switch.THROTTLE_TYPE_ANALOG k)) in
  Z.land (Switch.EXTI_IMR analog) m = 0%Z
  /\ Z.land (Switch.EXTI_IMR pas) m = m
  /\ Z.land (Switch.EXTI_IMR back) m = 0%Z
  /\ Z.land (Switch.EXTI_IMR analog) (not32 m) = Z.land (Switch.EXTI_IMR h) (not32 m)
  /\ Z.land (Switch.EXTI_IMR pas) (not32 m) = Z.land (Switch.EXTI_IMR h) (not32 m)
  /\ (if (thrnum =? 1)%Z then Switch.PAS1_TIM pas else Switch.PAS2_TIM pas)
     = Switch.mkTimer (Switch.PAS_TIM_PSC k) 0xFFFF (Switch.TIM_CR1_CEN k).
Proof.
  intros Hn Hdiff Hm m analog pas back.
  apply Z.eqb_neq in Hdiff.
  subst analog pas back m. unfold Switch.line_mask in *.
  unfold Switch.throttle_switch_type.
  destruct Hn as [-> | ->]; cbn [Z.eqb Pos.eqb] in *;
    rewrite Z.eqb_refl, Hdiff, Z.eqb_refl;
    cbn [fst Switch.EXTI_IMR Switch.PAS1_TIM Switch.PAS2_TIM];
    repeat split;
    try (apply land_land_not32; exact Hm);
    try apply land_lor_mask;
    try (apply lor_outside_mask; exact Hm);
    try (rewrite <- Z.land_assoc, Z.land_diag; reflexivity).
Qed.

Lemma X18_witness :
  let k := Switch.default_macros in
  let pas := fst (Switch.throttle_switch_type k Switch.reset_hardware 1
                    (Switch.THROTTLE_TYPE_PAS k)) in
  let back := fst (Switch.throttle_switch_type k pas 1
                     (Switch.THROTTLE_TYPE_ANALOG k)) in
  ((1 = 1)%Z \/ (1 = 2)%Z)
  /\ Switch.THROTTLE_TYPE_PAS k <> Switch.THROTTLE_TYPE_ANALOG k
  /\ (0 <= Switch.line_mask k 1 < 4294967296)%Z
  /\ Z.land (Switch.EXTI_IMR pas) (Switch.line_mask k 1) = Switch.line_mask k 1
  /\ Z.land (Switch.EXTI_IMR back) (Switch.line_mask k 1) = 0%Z.
Proof.
  intros k pas back.
  assert (H1 : (1 = 1)%Z \/ (1 = 2)%Z) by (left; reflexivity).
  assert (H2 : Switch.THROTTLE_TYPE_PAS k <> Switch.THROTTLE_TYPE_ANALOG k)
    by (vm_compute; discriminate).
  assert (H3 : (0 <= Switch.line_mask k 1 < 4294967296)%Z)
    by (unfold k; cbn; lia).
  pose proof (X18_switch_masks_the_line k Switch.reset_hardware 1 H1 H2 H3)
    as (_ & A & B & _).
  split; [exact H1|]. split; [exact H2|]. split; [exact H3|].
  split; [exact A | exact B].
Defined.

End HardwareSetup.
